(** * Dynamic Form System: search, sort, pagination and intake validation

    A shallow embedding of the React front end of the Dynamic Form System
    (formService, SubmissionsList and DynamicForm) together with the
    properties of its search / sort / pagination pipeline, of the request
    parameters it builds and of the client-side validation of a submission.

    JavaScript values are modelled by the type [JS.value]; an abrupt
    completion (a thrown [TypeError]) is explicit in [JS.completion].
    Strings are sequences of 8-bit code units; letter case and white space
    are those of ASCII.  Numbers are the integer-valued doubles and NaN.
    A timestamp is kept as the time value that [Date] computes from it.
    Requests are modelled up to the point where they leave the browser: the
    server behind the API is not part of this development. *)

From Stdlib Require Import ZArith Ascii String.
From stdpp Require Import base option list gmap strings pretty sorting.

Local Open Scope string_scope.
Local Open Scope Z_scope.

(** ** The fragment of JavaScript used by the components *)

Module JS.

(** Numbers: integer-valued doubles (exact below 2^53) and NaN. *)
Inductive number : Type :=
| Num (z : Z)
| NaN.

(** Primitive values found in a JSON payload or in a form control. *)
Inductive value : Type :=
| VUndefined
| VNull
| VBool (b : bool)
| VNumber (n : number)
| VString (s : string).

#[global] Instance number_eq_dec : EqDecision number.
Proof. solve_decision. Defined.
#[global] Instance value_eq_dec : EqDecision value.
Proof. solve_decision. Defined.

(** Completion records: a normal result or a thrown exception. *)
Inductive error : Type := TypeError.

Inductive completion (A : Type) : Type :=
| Normal (a : A)
| Throw (e : error).
Arguments Normal {A} a.
Arguments Throw {A} e.

Definition bind {A B} (c : completion A) (f : A → completion B) : completion B :=
  match c with
  | Normal a => f a
  | Throw e => Throw e
  end.

Definition returns {A} (c : completion A) : Prop := ∃ a, c = Normal a.

#[global] Instance error_eq_dec : EqDecision error.
Proof. solve_decision. Defined.
#[global] Instance completion_eq_dec {A} `{EqDecision A} : EqDecision (completion A).
Proof. solve_decision. Defined.

(** ToBoolean *)
Definition truthy (v : value) : bool :=
  match v with
  | VUndefined | VNull => false
  | VBool b => b
  | VNumber (Num z) => negb (z =? 0)
  | VNumber NaN => false
  | VString s => negb (String.eqb s "")
  end.

(** [x || d] *)
Definition or_else (x d : value) : value := if truthy x then x else d.

(** Number::toString and ToString *)
Definition number_to_string (n : number) : string :=
  match n with
  | Num z => pretty z
  | NaN => "NaN"
  end.

Definition ToString (v : value) : string :=
  match v with
  | VUndefined => "undefined"
  | VNull => "null"
  | VBool true => "true"
  | VBool false => "false"
  | VNumber n => number_to_string n
  | VString s => s
  end.

(** Characters *)
Definition code (c : ascii) : Z := Z.of_N (N_of_ascii c).

Definition is_white_space (c : ascii) : bool :=
  let n := code c in
  (n =? 9) || (n =? 10) || (n =? 11) || (n =? 12) || (n =? 13) || (n =? 32).

Definition lower_char (c : ascii) : ascii :=
  let n := N_of_ascii c in
  if ((65 <=? n) && (n <=? 90))%N then ascii_of_N (n + 32) else c.

(** String.prototype.toLowerCase, on a string *)
Fixpoint lower (s : string) : string :=
  match s with
  | EmptyString => EmptyString
  | String c s' => String (lower_char c) (lower s')
  end.

(** The method call [v.toLowerCase()]: only strings carry the method;
    on a number or a boolean the property is undefined and the call
    throws, on undefined and null the property access itself throws. *)
Definition toLowerCase (v : value) : completion string :=
  match v with
  | VString s => Normal (lower s)
  | _ => Throw TypeError
  end.

(** String.prototype.trim *)
Fixpoint trimStart (s : string) : string :=
  match s with
  | EmptyString => EmptyString
  | String c s' => if is_white_space c then trimStart s' else s
  end.

Definition trimEnd (s : string) : string :=
  String.rev (trimStart (String.rev s)).

Definition trim (s : string) : string := trimEnd (trimStart s).

(** String.prototype.includes *)
Fixpoint starts_with (s q : string) : bool :=
  match q, s with
  | EmptyString, _ => true
  | String _ _, EmptyString => false
  | String a q', String b s' => if decide (a = b) then starts_with s' q' else false
  end.

Fixpoint includes (s q : string) : bool :=
  starts_with s q ||
  match s with
  | EmptyString => false
  | String _ s' => includes s' q
  end.

(** parseInt with the radix left undefined *)
Definition digit_value (c : ascii) : option Z :=
  let n := code c in
  if (48 <=? n) && (n <=? 57) then Some (n - 48)
  else if (97 <=? n) && (n <=? 122) then Some (n - 87)
  else if (65 <=? n) && (n <=? 90) then Some (n - 55)
  else None.

Definition radix_digit (R : Z) (c : ascii) : option Z :=
  match digit_value c with
  | Some d => if d <? R then Some d else None
  | None => None
  end.

Fixpoint parse_digits (R : Z) (s : string) (acc : option Z) : option Z :=
  match s with
  | EmptyString => acc
  | String c s' =>
      match radix_digit R c with
      | Some d => parse_digits R s' (Some (default 0 acc * R + d))
      | None => acc
      end
  end.

Definition strip_sign (s : string) : Z * string :=
  match s with
  | String "-" s' => (-1, s')
  | String "+" s' => (1, s')
  | _ => (1, s)
  end.

Definition strip_radix (s : string) : Z * string :=
  match s with
  | String "0" (String "x" s') => (16, s')
  | String "0" (String "X" s') => (16, s')
  | _ => (10, s)
  end.

Definition parseInt_string (input : string) : number :=
  let '(sign, s1) := strip_sign (trimStart input) in
  let '(R, s2) := strip_radix s1 in
  match parse_digits R s2 None with
  | Some m => Num (sign * m)
  | None => NaN
  end.

Definition parseInt (v : value) : number := parseInt_string (ToString v).

(** The relational operator [<] on two numbers and on two strings *)
Definition number_ltb (a b : number) : bool :=
  match a, b with
  | Num x, Num y => x <? y
  | _, _ => false
  end.

Definition string_ltb (a b : string) : bool := String.ltb a b.

End JS.

Export JS.

Notation "'let*' x ':=' c 'in' k" := (JS.bind c (λ x, k))
  (at level 10, x name, c at level 100, k at level 200, only parsing).

(** Array methods.  [Array_filter] and [Array_sort] call back into code that
    may throw; the exception aborts the traversal. *)
Module JSArray.

(** Array.prototype.filter *)
Fixpoint filter {A} (p : A → completion bool) (l : list A) : completion (list A) :=
  match l with
  | [] => Normal []
  | x :: l' =>
      let* b := p x in
      let* r := filter p l' in
      Normal (if b then x :: r else r)
  end.

(** Array.prototype.map *)
Fixpoint map {A B} (f : A → completion B) (l : list A) : completion (list B) :=
  match l with
  | [] => Normal []
  | x :: l' =>
      let* y := f x in
      let* r := map f l' in
      Normal (y :: r)
  end.

(** Array.prototype.sort with a comparator.  The standard requires the
    sort to be stable and leaves the algorithm open; it is modelled by the
    stable insertion sort: [x], which precedes every element of [l] in the
    array, is moved behind exactly those leading elements [y] for which the
    comparator answers [cmp x y > 0].  For a comparator that orders its
    arguments consistently every stable sort returns the same array
    ([stable_sorted_unique] below); for an inconsistent one (NaN keys) the
    standard leaves the order to the engine. *)
Fixpoint insert {A} (cmp : A → A → completion Z) (x : A) (l : list A)
  : completion (list A) :=
  match l with
  | [] => Normal [x]
  | y :: l' =>
      let* c := cmp x y in
      if 0 <? c then let* r := insert cmp x l' in Normal (y :: r)
      else Normal (x :: y :: l')
  end.

Fixpoint sort {A} (cmp : A → A → completion Z) (l : list A) : completion (list A) :=
  match l with
  | [] => Normal []
  | x :: l' => let* r := sort cmp l' in insert cmp x r
  end.

(** Array.prototype.slice(start, end), relative indices included *)
Definition slice {A} (l : list A) (start end_ : Z) : list A :=
  let len := Z.of_nat (length l) in
  let k := if start <? 0 then Z.max (len + start) 0 else Z.min start len in
  let final := if end_ <? 0 then Z.max (len + end_) 0 else Z.min end_ len in
  take (Z.to_nat (final - k)) (drop (Z.to_nat k) l).

(** Array.prototype.includes (SameValueZero, which on [value] is equality) *)
Definition includes (l : list value) (v : value) : bool := bool_decide (v ∈ l).

(** The elements of [new Set(l)], in insertion order *)
Fixpoint distinct_from (seen l : list value) : list value :=
  match l with
  | [] => []
  | x :: l' =>
      if decide (x ∈ seen) then distinct_from seen l'
      else x :: distinct_from (x :: seen) l'
  end.

Definition Set_values (l : list value) : list value := distinct_from [] l.

End JSArray.

(** ** Data model *)

(** A submission as the API returns it.  [submitted_at] holds the time value
    [new Date(submitted_at).getTime()] of the record's timestamp, NaN when
    the timestamp is missing or unparsable.  [form_data] is [None] when the
    property is null or missing. *)
Record submission : Type := {
  id : Z;
  submitted_at : number;
  form_data : option (gmap string value);
  is_duplicate : bool;
}.

#[global] Instance submission_eq_dec : EqDecision submission.
Proof. solve_decision. Defined.

(** Property access [data.k] on a plain object *)
Definition prop (data : gmap string value) (k : string) : value :=
  default VUndefined (data !! k).

(** ** formService: the parameters of the list and search requests *)

Module FormService.

(** The options object of a request; a property that is left out is [None].
    The components pass numbers for [skip] and [limit]. *)
Record options : Type := {
  query : option string;
  skip : option number;
  limit : option number;
  sort_by : option string;
  order : option string;
  is_duplicate : option bool;
}.

Record request : Type := {
  path : string;
  params : list (string * string);
}.

Definition number_or (x : option number) (d : Z) : number :=
  match x with
  | Some n => if truthy (VNumber n) then n else Num d
  | None => Num d
  end.

Definition Math_min (a b : number) : number :=
  match a, b with
  | Num x, Num y => Num (Z.min x y)
  | _, _ => NaN
  end.

Definition string_param (k : string) (x : option string) : list (string * string) :=
  match x with
  | Some s => if truthy (VString s) then [(k, s)] else []
  | None => []
  end.

Definition defined_param (k : string) (x : option bool) : list (string * string) :=
  match x with
  | Some b => [(k, ToString (VBool b))]
  | None => []
  end.

Definition getSubmissions (o : options) : request :=
  {| path := "/submissions/";
     params :=
       [("skip", number_to_string (number_or (skip o) 0));
        ("limit", number_to_string (Math_min (number_or (limit o) 50) (Num 1000)))]
       ++ string_param "sort_by" (sort_by o)
       ++ string_param "order" (order o)
       ++ defined_param "is_duplicate" (is_duplicate o) |}.

Definition searchSubmissions (o : options) : request :=
  {| path := "/submissions/search";
     params :=
       string_param "query" (query o)
       ++ [("skip", number_to_string (number_or (skip o) 0));
           ("limit", number_to_string (Math_min (number_or (limit o) 50) (Num 1000)))]
       ++ defined_param "is_duplicate" (is_duplicate o) |}.

(** URLSearchParams.get: the first value stored under the key *)
Definition get (k : string) (r : request) : option string :=
  snd <$> List.find (λ kv, String.eqb (fst kv) k) (params r).

End FormService.

(** ** SubmissionsList: search filter, sort and page slice *)

Module SubmissionsList.

(** One operand [data.f && data.f.toLowerCase().includes(query)] of the
    search disjunction *)
Definition text_clause (v : value) (query : string) : completion bool :=
  if truthy v then
    let* s := toLowerCase v in Normal (JS.includes s query)
  else Normal false.

(** The operand [data.age && String(data.age).includes(query)] *)
Definition age_clause (v : value) (query : string) : completion bool :=
  if truthy v then Normal (JS.includes (ToString v) query) else Normal false.

(** The operand [String(sub.id).includes(query)] *)
Definition id_clause (i : Z) (query : string) : completion bool :=
  Normal (JS.includes (ToString (VNumber (Num i))) query).

(** Short-circuit [||] of two operands *)
Definition orelse (c : completion bool) (k : completion bool) : completion bool :=
  let* b := c in if b then Normal true else k.

(** The callback handed to [result.filter] *)
Definition matchesQuery (query : string) (sub : submission) : completion bool :=
  let data := default ∅ (form_data sub) in
  orelse (text_clause (prop data "name") query)
    (orelse (text_clause (prop data "email") query)
       (orelse (age_clause (prop data "age") query)
          (orelse (text_clause (prop data "gender") query)
             (id_clause (id sub) query)))).

(** Sort keys: [aValue] and [bValue] of the comparator *)
Inductive key : Type :=
| KNum (n : number)
| KStr (s : string).

#[global] Instance key_eq_dec : EqDecision key.
Proof. solve_decision. Defined.

(** [aValue < bValue]; both keys of a call come from the same arm of the
    switch, a number against a string is never compared *)
Definition key_ltb (a b : key) : bool :=
  match a, b with
  | KNum x, KNum y => number_ltb x y
  | KStr x, KStr y => string_ltb x y
  | _, _ => false
  end.

(** [(formData.f || '').toLowerCase()] *)
Definition text_key (v : value) : completion key :=
  let* s := toLowerCase (or_else v (VString "")) in Normal (KStr s).

(** [parseInt(formData.age) || 0] *)
Definition age_key (v : value) : key :=
  let n := parseInt v in
  KNum (if truthy (VNumber n) then n else Num 0).

(** The switch on [sortBy] *)
Definition sort_key (sortBy : string) (a : submission) : completion key :=
  let formData := default ∅ (form_data a) in
  if String.eqb sortBy "id" then Normal (KNum (Num (id a)))
  else if String.eqb sortBy "submitted_at" then Normal (KNum (submitted_at a))
  else if String.eqb sortBy "name" then text_key (prop formData "name")
  else if String.eqb sortBy "email" then text_key (prop formData "email")
  else if String.eqb sortBy "age" then Normal (age_key (prop formData "age"))
  else if String.eqb sortBy "gender" then text_key (prop formData "gender")
  else Normal (KNum (Num (id a))).

(** The comparator of [sortSubmissions] *)
Definition compare (sortBy sortOrder : string) (a b : submission) : completion Z :=
  let* aValue := sort_key sortBy a in
  let* bValue := sort_key sortBy b in
  if key_ltb aValue bValue then Normal (if String.eqb sortOrder "asc" then -1 else 1)
  else if key_ltb bValue aValue then Normal (if String.eqb sortOrder "asc" then 1 else -1)
  else Normal 0.

Definition sortSubmissions (sortBy sortOrder : string) (data : list submission)
  : completion (list submission) :=
  JSArray.sort (compare sortBy sortOrder) data.

(** Component state read or written by the filter effect *)
Record state : Type := {
  submissions : list submission;
  filteredSubmissions : list submission;
  total : nat;
  searchQuery : string;
  page : nat;
  pageSize : nat;
  sortBy : string;
  sortOrder : string;
}.

(** The [useState] initialisers *)
Definition initial : state :=
  {| submissions := [];
     filteredSubmissions := [];
     total := 0;
     searchQuery := "";
     page := 0;
     pageSize := 10;
     sortBy := "submitted_at";
     sortOrder := "desc" |}.

(** The setters [setPage] and [setPageSize] *)
Definition setPage (p : nat) (st : state) : state :=
  {| submissions := submissions st;
     filteredSubmissions := filteredSubmissions st;
     total := total st;
     searchQuery := searchQuery st;
     page := p;
     pageSize := pageSize st;
     sortBy := sortBy st;
     sortOrder := sortOrder st |}.

Definition setPageSize (n : nat) (st : state) : state :=
  {| submissions := submissions st;
     filteredSubmissions := filteredSubmissions st;
     total := total st;
     searchQuery := searchQuery st;
     page := page st;
     pageSize := n;
     sortBy := sortBy st;
     sortOrder := sortOrder st |}.

(** [handleSearchChange]: the new query, back to the first page *)
Definition handleSearchChange (value : string) (st : state) : state :=
  {| submissions := submissions st;
     filteredSubmissions := filteredSubmissions st;
     total := total st;
     searchQuery := value;
     page := 0;
     pageSize := pageSize st;
     sortBy := sortBy st;
     sortOrder := sortOrder st |}.

(** [handleColumnClick]: a click on the current sort column toggles the
    order, a click on another column selects it, descending *)
Definition handleColumnClick (field : string) (st : state) : state :=
  {| submissions := submissions st;
     filteredSubmissions := filteredSubmissions st;
     total := total st;
     searchQuery := searchQuery st;
     page := page st;
     pageSize := pageSize st;
     sortBy := field;
     sortOrder :=
       if String.eqb (sortBy st) field then
         (if String.eqb (sortOrder st) "desc" then "asc" else "desc")
       else "desc" |}.

(** The search step of the effect *)
Definition search (searchQuery : string) (result : list submission)
  : completion (list submission) :=
  if truthy (VString (trim searchQuery)) then
    let query := lower searchQuery in
    JSArray.filter (matchesQuery query) result
  else Normal result.

(** The effect "apply filters and search": filter, sort, slice, then
    [setFilteredSubmissions] and [setTotal] *)
Definition applyFilters (st : state) : completion state :=
  let* result := search (searchQuery st) (submissions st) in
  let* result := sortSubmissions (sortBy st) (sortOrder st) result in
  let startIdx := Z.of_nat (page st * pageSize st) in
  let paginatedResult :=
    JSArray.slice result startIdx (startIdx + Z.of_nat (pageSize st)) in
  Normal {| submissions := submissions st;
            filteredSubmissions := paginatedResult;
            total := length result;
            searchQuery := searchQuery st;
            page := page st;
            pageSize := pageSize st;
            sortBy := sortBy st;
            sortOrder := sortOrder st |}.

(** [fetchSubmissions]: the options of the list request.  The server sorts
    by id unless the view sorts by submitted_at. *)
Definition fetchParams (st : state) : FormService.options :=
  {| FormService.query := None;
     FormService.skip := Some (Num 0);
     FormService.limit := Some (Num 1000);
     FormService.sort_by :=
       Some (if String.eqb (sortBy st) "submitted_at" then "submitted_at" else "id");
     FormService.order := Some (sortOrder st);
     FormService.is_duplicate := None |}.

Definition fetchRequest (st : state) : FormService.request :=
  FormService.getSubmissions (fetchParams st).

(** [fetchSubmissions] once the response is there: [response.submissions || []]
    and [response.submissions?.length || 0] *)
Definition fetched (response : option (list submission)) (st : state) : state :=
  {| submissions := default [] response;
     filteredSubmissions := filteredSubmissions st;
     total := length (default [] response);
     searchQuery := searchQuery st;
     page := page st;
     pageSize := pageSize st;
     sortBy := sortBy st;
     sortOrder := sortOrder st |}.

(** [Math.ceil(total / pageSize) || 1].  The quotient by a page size of 0 is
    Infinity, and NaN (hence one page) when the total is 0 as well. *)
Inductive pages : Type :=
| Count (n : nat)
| Infinity.

Definition totalPages (st : state) : pages :=
  if (pageSize st =? 0)%nat then
    (if (total st =? 0)%nat then Count 1 else Infinity)
  else
    let n := ((total st + pageSize st - 1) / pageSize st)%nat in
    Count (if (n =? 0)%nat then 1%nat else n).

(** [page < totalPages - 1] and [page > 0] *)
Definition hasNextPage (st : state) : bool :=
  match totalPages st with
  | Count n => (Z.of_nat (page st) <? Z.of_nat n - 1)
  | Infinity => true
  end.

Definition hasPreviousPage (st : state) : bool := (0 <? page st)%nat.

(** The handlers of the two buttons: [setPage(Math.max(0, page - 1))] and
    [setPage(Math.min(totalPages - 1, page + 1))] *)
Definition previousPage (st : state) : state :=
  setPage (Z.to_nat (Z.max 0 (Z.of_nat (page st) - 1))) st.

Definition nextPage (st : state) : state :=
  match totalPages st with
  | Count n => setPage (Z.to_nat (Z.min (Z.of_nat n - 1) (Z.of_nat (page st) + 1))) st
  | Infinity => setPage (page st + 1) st
  end.

(** The page size select: [setPageSize(parseInt(e.target.value)); setPage(0)] *)
Definition handlePageSizeChange (n : nat) (st : state) : state :=
  setPage 0 (setPageSize n st).

(** "Showing [showingFrom] to [showingTo] of [total] submissions" *)
Definition showingFrom (st : state) : nat :=
  if (0 <? length (filteredSubmissions st))%nat then (page st * pageSize st + 1)%nat
  else 0%nat.

Definition showingTo (st : state) : nat :=
  Nat.min ((page st + 1) * pageSize st) (total st).

(** [getSortIndicator]: the arrow shown beside a column title, one of three
    strings: both arrows on a column the list is not sorted by, the arrow up
    or the arrow down on the sort column *)
Inductive indicator : Type :=
| BothArrows
| UpArrow
| DownArrow.

Definition getSortIndicator (field : string) (st : state) : indicator :=
  if negb (String.eqb (sortBy st) field) then BothArrows
  else if String.eqb (sortOrder st) "asc" then UpArrow else DownArrow.

End SubmissionsList.

(** ** DynamicForm: existing e-mails, validation and the submit guard *)

Module DynamicForm.

(** [parseFloat] yields an arbitrary double, of which the validation only
    asks whether it is NaN and how it compares with the bounds of the
    schema.  The doubles and these three questions are an interface. *)
Class Doubles : Type := {
  double : Type;
  parseFloat : value → double;
  isNaN : double → bool;
  (** [numValue < bound] *)
  below : double → number → bool;
  (** [numValue > bound] *)
  above : double → number → bool;
}.

(** The integer-valued doubles, enough to run the validation on closed
    examples: [parseFloat] on a decimal integer literal (a fraction or an
    exponent behind it is cut off). *)
Definition parseFloat_integer (v : value) : number :=
  let '(sign, s) := strip_sign (trimStart (ToString v)) in
  match parse_digits 10 s None with
  | Some m => Num (sign * m)
  | None => NaN
  end.

Definition integer_doubles : Doubles :=
  {| double := number;
     parseFloat := parseFloat_integer;
     isNaN := λ n, match n with NaN => true | Num _ => false end;
     below := number_ltb;
     above := λ x b, number_ltb b x |}.

(** One entry of the schema *)
Record fieldConfig : Type := {
  type : string;
  required : bool;
  minLength : option Z;
  maxLength : option Z;
  min : option number;
  max : option number;
  options : option (list value);
}.

(** The messages pushed on [fieldErrors] *)
Inductive message : Type :=
| IsRequired (fieldName : string)     (* `${fieldName} is required` *)
| InvalidEmailFormat                   (* 'Invalid email format' *)
| EmailExists                          (* 'This email already exists in the system. ...' *)
| TooShort (n : Z)                     (* `Must be at least ${minLength} characters` *)
| TooLong (n : Z)                      (* `Must be at most ${maxLength} characters` *)
| NotANumber                           (* 'Must be a valid number' *)
| TooSmall (n : number)                (* `Must be at least ${min}` *)
| TooLarge (n : number)                (* `Must be at most ${max}` *)
| InvalidDateFormat                    (* 'Invalid date format (use YYYY-MM-DD)' *)
| InvalidSelection.                    (* 'Invalid selection' *)

#[global] Instance message_eq_dec : EqDecision message.
Proof. solve_decision. Defined.

(** [value === '' || value === null || value === undefined] *)
Definition is_empty (v : value) : bool :=
  match v with
  | VString "" | VNull | VUndefined => true
  | _ => false
  end.

(** The character class [[^\s@]] *)
Definition email_char (c : ascii) : bool :=
  negb (is_white_space c) && negb (bool_decide (c = "@"%char)).

Fixpoint all_chars (p : ascii → bool) (s : string) : bool :=
  match s with
  | EmptyString => true
  | String c s' => p c && all_chars p s'
  end.

(** A dot that is followed by at least one more character *)
Fixpoint dot_inside (s : string) : bool :=
  match s with
  | EmptyString => false
  | String c s' =>
      (bool_decide (c = "."%char) && negb (String.eqb s' "")) || dot_inside s'
  end.

(** After the at sign: [[^\s@]+\.[^\s@]+$] *)
Definition email_domain (s : string) : bool :=
  all_chars email_char s &&
  match s with
  | EmptyString => false
  | String _ s' => dot_inside s'
  end.

(** Before the at sign: [^[^\s@]+@], the class cannot run over an at sign *)
Fixpoint email_from (seen : bool) (s : string) : bool :=
  match s with
  | EmptyString => false
  | String c s' =>
      if bool_decide (c = "@"%char) then seen && email_domain s'
      else email_char c && email_from true s'
  end.

(** [/^[^\s@]+@[^\s@]+\.[^\s@]+$/.test(value)] *)
Definition emailRegex_test (v : value) : bool := email_from false (ToString v).

Definition is_digit (c : ascii) : bool := (48 <=? code c) && (code c <=? 57).
Definition is_dash (c : ascii) : bool := bool_decide (c = "-"%char).

(** [/^\d{4}-\d{2}-\d{2}$/.test(value)] *)
Definition dateRegex_test (v : value) : bool :=
  match list_ascii_of_string (ToString v) with
  | [y1; y2; y3; y4; d1; m1; m2; d2; a1; a2] =>
      forallb is_digit [y1; y2; y3; y4; m1; m2; a1; a2] && is_dash d1 && is_dash d2
  | _ => false
  end.

(** [value.length], undefined on anything but a string *)
Definition value_length (v : value) : option Z :=
  match v with
  | VString s => Some (Z.of_nat (String.length s))
  | _ => None
  end.

(** A comparison with [undefined] is false *)
Definition length_below (v : value) (n : Z) : bool :=
  match value_length v with Some l => l <? n | None => false end.
Definition length_above (v : value) (n : Z) : bool :=
  match value_length v with Some l => n <? l | None => false end.

Definition push_if (b : bool) (m : message) : list message := if b then [m] else [].

(** Component state *)
Record state : Type := {
  formData : gmap string value;
  errors : gmap string (list message);
  loading : bool;
  submitMessage : string;
  submitError : string;
  existingEmails : list value;
}.

(** [loadExistingEmails], once the list request has answered with
    [response.submissions]: the e-mails on record, empty ones removed,
    each kept once.  Reading [.email] of a missing [form_data] throws;
    the [catch] logs the error and leaves the state as it was. *)
Definition emails_of (subs : list submission) : completion (list value) :=
  let* emails :=
    JSArray.map (λ s, match form_data s with
                      | Some data => Normal (prop data "email")
                      | None => Throw TypeError
                      end) subs in
  Normal (List.filter truthy emails).

Definition loadExistingEmails (subs : list submission) (st : state) : state :=
  match emails_of subs with
  | Normal emails =>
      {| formData := formData st; errors := errors st; loading := loading st;
         submitMessage := submitMessage st; submitError := submitError st;
         existingEmails := JSArray.Set_values emails |}
  | Throw _ => st
  end.

(** The [useState] initialisers followed by the mount effect, which sets
    every field of the schema to the empty string *)
Definition initial (schema : list (string * fieldConfig)) : state :=
  {| formData := list_to_map ((λ entry, (fst entry, VString "")) <$> schema);
     errors := ∅;
     loading := false;
     submitMessage := "";
     submitError := "";
     existingEmails := [] |}.

(** [setFormData] *)
Definition setFormData (data : gmap string value) (st : state) : state :=
  {| formData := data; errors := errors st; loading := loading st;
     submitMessage := submitMessage st; submitError := submitError st;
     existingEmails := existingEmails st |}.

Section Validation.
Context `{Doubles}.

(** The checks "by type" of a non-empty value, in source order *)
Definition typeErrors (existingEmails : list value) (fieldConfig : fieldConfig)
    (value : value) : list message :=
  (if String.eqb (type fieldConfig) "email" then
     push_if (negb (emailRegex_test value)) InvalidEmailFormat
     ++ push_if (JSArray.includes existingEmails value) EmailExists
   else [])
  ++ (if String.eqb (type fieldConfig) "string" || String.eqb (type fieldConfig) "text" then
        match minLength fieldConfig with
        | Some n => push_if (negb (n =? 0) && length_below value n) (TooShort n)
        | None => []
        end
        ++ match maxLength fieldConfig with
           | Some n => push_if (negb (n =? 0) && length_above value n) (TooLong n)
           | None => []
           end
      else [])
  ++ (if String.eqb (type fieldConfig) "number" then
        let numValue := parseFloat value in
        if isNaN numValue then [NotANumber]
        else
          match min fieldConfig with
          | Some b => push_if (below numValue b) (TooSmall b)
          | None => []
          end
          ++ match max fieldConfig with
             | Some b => push_if (above numValue b) (TooLarge b)
             | None => []
             end
      else [])
  ++ (if String.eqb (type fieldConfig) "date" then
        push_if (negb (dateRegex_test value)) InvalidDateFormat
      else [])
  ++ (if String.eqb (type fieldConfig) "dropdown" then
        match options fieldConfig with
        | Some opts => push_if (negb (JSArray.includes opts value)) InvalidSelection
        | None => [InvalidSelection]
        end
      else []).

(** The body of the [forEach] callback: the errors of one field *)
Definition fieldErrors (existingEmails : list value) (fieldName : string)
    (fieldConfig : fieldConfig) (value : value) : list message :=
  let required_error :=
    push_if (required fieldConfig && is_empty value) (IsRequired fieldName) in
  if is_empty value then required_error
  else required_error ++ typeErrors existingEmails fieldConfig value.

Definition validateField (formData : gmap string value) (existingEmails : list value)
    (newErrors : gmap string (list message)) (entry : string * fieldConfig)
  : gmap string (list message) :=
  let '(fieldName, fieldConfig) := entry in
  let errs := fieldErrors existingEmails fieldName fieldConfig (prop formData fieldName) in
  if 0 <? Z.of_nat (length errs) then <[fieldName := errs]> newErrors else newErrors.

(** [validateForm]: the new error map, handed to [setErrors], and the
    verdict [Object.keys(newErrors).length === 0] *)
Definition validateForm (schema : list (string * fieldConfig))
    (formData : gmap string value) (existingEmails : list value)
  : gmap string (list message) * bool :=
  let newErrors := foldl (validateField formData existingEmails) ∅ schema in
  (newErrors, bool_decide (size newErrors = 0%nat)).

(** What [handleSubmit] does before it awaits the response: it clears both
    banners, validates, and either returns or raises [loading] and posts
    the form data.  The second component is the body of the request
    issued, if any. *)
Definition handleSubmit (schema : list (string * fieldConfig)) (st : state)
  : state * option (gmap string value) :=
  let '(newErrors, valid) := validateForm schema (formData st) (existingEmails st) in
  if negb valid then
    ({| formData := formData st; errors := newErrors; loading := loading st;
        submitMessage := ""; submitError := "";
        existingEmails := existingEmails st |}, None)
  else
    ({| formData := formData st; errors := newErrors; loading := true;
        submitMessage := ""; submitError := "";
        existingEmails := existingEmails st |}, Some (formData st)).

End Validation.

(** [handleChange]: the field takes the value of the control ([checked] for a
    check box) and, when an error is shown for the field, the error is
    replaced by the empty string, which stands in the error map as the empty
    list. *)
Definition handleChange (name value type : string) (checked : bool) (st : state) : state :=
  {| formData :=
       <[name := if String.eqb type "checkbox" then VBool checked else VString value]>
         (formData st);
     errors :=
       match errors st !! name with
       | Some (_ :: _) => <[name := []]> (errors st)
       | _ => errors st
       end;
     loading := loading st;
     submitMessage := submitMessage st;
     submitError := submitError st;
     existingEmails := existingEmails st |}.

(** [isEmailDuplicate] of [renderField]: the warning shown beside the field
    while it is edited *)
Definition isEmailDuplicate (fieldName : string) (st : state) : bool :=
  let value := or_else (prop (formData st) fieldName) (VString "") in
  String.eqb fieldName "email" && truthy value
  && JSArray.includes (existingEmails st) value.

End DynamicForm.


(** ** App: the schema handed to the form *)

Module App.

Definition formSchema : list (string * DynamicForm.fieldConfig) :=
  [("name",
    {| DynamicForm.type := "string"; DynamicForm.required := true;
       DynamicForm.minLength := Some 3; DynamicForm.maxLength := Some 50;
       DynamicForm.min := None; DynamicForm.max := None;
       DynamicForm.options := None |});
   ("email",
    {| DynamicForm.type := "email"; DynamicForm.required := true;
       DynamicForm.minLength := None; DynamicForm.maxLength := None;
       DynamicForm.min := None; DynamicForm.max := None;
       DynamicForm.options := None |});
   ("age",
    {| DynamicForm.type := "number"; DynamicForm.required := true;
       DynamicForm.minLength := None; DynamicForm.maxLength := None;
       DynamicForm.min := Some (Num 0); DynamicForm.max := Some (Num 120);
       DynamicForm.options := None |});
   ("gender",
    {| DynamicForm.type := "dropdown"; DynamicForm.required := true;
       DynamicForm.minLength := None; DynamicForm.maxLength := None;
       DynamicForm.min := None; DynamicForm.max := None;
       DynamicForm.options := Some [VString "male"; VString "female"; VString "other"] |})].

End App.

(** ** Vocabulary of the specification *)

(** [q] occurs in [s] *)
Definition Substring (q s : string) : Prop :=
  ∃ before after, s = before +:+ q +:+ after.

(** [text] contains [q], letter case ignored *)
Definition contains_ci (text q : string) : Prop :=
  Substring (lower q) (lower text).

(** The field [k] of a submission's form data, [undefined] when the form
    data or the field is missing *)
Definition field (sub : submission) (k : string) : value :=
  prop (default ∅ (form_data sub)) k.

Definition with_form_data (d : option (gmap string value)) (sub : submission)
  : submission :=
  {| id := id sub; submitted_at := submitted_at sub; form_data := d;
     is_duplicate := is_duplicate sub |}.

Definition present (v : value) : Prop := v ≠ VUndefined ∧ v ≠ VNull.

(** A field that is there and whose rendering contains the query *)
Definition field_contains (v : value) (q : string) : Prop :=
  present v ∧ contains_ci (ToString v) q.

(** The match of the search contract: the id as a decimal string, the name,
    the e-mail, the age as a string or the gender contains the query *)
Definition claimed_match (q : string) (sub : submission) : Prop :=
  contains_ci (ToString (VNumber (Num (id sub)))) q
  ∨ field_contains (field sub "name") q
  ∨ field_contains (field sub "email") q
  ∨ field_contains (field sub "age") q
  ∨ field_contains (field sub "gender") q.


Definition falsy_or_string (v : value) : bool :=
  match v with
  | VString _ => true
  | _ => negb (truthy v)
  end.



(** Records whose text fields can be lower-cased: each of name, e-mail and
    gender is falsy or a string *)
Definition text_fields_ok (sub : submission) : Prop :=
  falsy_or_string (field sub "name") = true
  ∧ falsy_or_string (field sub "email") = true
  ∧ falsy_or_string (field sub "gender") = true.

(** The text of a field under [(v || '')] *)
Definition text_of (v : value) : string :=
  match v with
  | VString s => s
  | _ => ""
  end.

(** [parseInt(v) || 0] as an integer *)
Definition int_or_zero (n : number) : Z :=
  match n with
  | Num z => z
  | NaN => 0
  end.

(** Orders on submissions *)
Definition newest_first (a b : submission) : Prop :=
  match submitted_at a, submitted_at b with
  | Num x, Num y => y ≤ x
  | _, _ => False
  end.


Definition valid_time (sub : submission) : Prop := submitted_at sub ≠ NaN.


(** The order of two sort keys of the same kind; NaN is not ordered *)
Definition key_le (a b : SubmissionsList.key) : Prop :=
  match a, b with
  | SubmissionsList.KNum (Num x), SubmissionsList.KNum (Num y) => x ≤ y
  | SubmissionsList.KStr x, SubmissionsList.KStr y => String.le x y
  | _, _ => False
  end.

(** Two keys that the comparator can order: both numbers other than NaN, or
    both strings *)
Definition comparable (ka kb : SubmissionsList.key) : Prop :=
  match ka, kb with
  | SubmissionsList.KNum (Num _), SubmissionsList.KNum (Num _) | SubmissionsList.KStr _, SubmissionsList.KStr _ => True
  | _, _ => False
  end.

(** [a] may stand before [b] in a list sorted by [sortBy] in the direction
    [sortOrder]: "asc" is ascending, any other value descending *)
Definition in_order (sortBy sortOrder : string) (a b : submission) : Prop :=
  ∃ ka kb,
    SubmissionsList.sort_key sortBy a = Normal ka
    ∧ SubmissionsList.sort_key sortBy b = Normal kb
    ∧ if String.eqb sortOrder "asc" then key_le ka kb else key_le kb ka.

(** The records whose sort key is [k] *)
Definition has_key (sortBy : string) (k : SubmissionsList.key) (a : submission) : Prop :=
  SubmissionsList.sort_key sortBy a = Normal k.

#[global] Instance has_key_dec (sortBy : string) (k : SubmissionsList.key) (a : submission) :
  Decision (has_key sortBy k a).
Proof. unfold has_key. apply _. Defined.



(** The rows the list shows on page [p]: what the filter effect stores once
    the page has been set (none when the effect throws) *)
Definition rows_of_page (st : SubmissionsList.state) (p : nat) : list submission :=
  match SubmissionsList.applyFilters (SubmissionsList.setPage p st) with
  | Normal st' => SubmissionsList.filteredSubmissions st'
  | Throw _ => []
  end.

(** ** Sample records *)

Definition record (i : Z) (t : number) (dup : bool) (fields : list (string * value))
  : submission :=
  {| id := i; submitted_at := t; form_data := Some (list_to_map fields);
     is_duplicate := dup |}.

Definition ann : submission :=
  record 1 (Num 1000) false
    [("name", VString "Ann"); ("email", VString "Ann@X.com");
     ("age", VNumber (Num 30)); ("gender", VString "female")].

Definition bob : submission :=
  record 2 (Num 2000) true
    [("name", VString "Bob"); ("email", VString "ann@x.com");
     ("age", VNumber (Num 40)); ("gender", VString "male")].

Definition ann_again : submission :=
  record 3 (Num 3000) true
    [("name", VString "ANN"); ("email", VString "ann@x.com");
     ("age", VNumber (Num 31)); ("gender", VString "female")].

(** A filled-in form *)
Definition form (name email age gender : string) : gmap string value :=
  list_to_map [("name", VString name); ("email", VString email);
               ("age", VString age); ("gender", VString gender)].

(** The form component once the e-mails of [subs] are loaded and the fields
    hold [data] *)
Definition editing (subs : list submission) (data : gmap string value)
  : DynamicForm.state :=
  DynamicForm.setFormData data
    (DynamicForm.loadExistingEmails subs (DynamicForm.initial App.formSchema)).

(** The form component a moment after a successful submission: the banner
    is up, the fields have been reset by [setFormData({})] *)
Definition after_success : DynamicForm.state :=
  {| DynamicForm.formData := ∅;
     DynamicForm.errors := ∅;
     DynamicForm.loading := false;
     DynamicForm.submitMessage := "Form submitted successfully! (ID: 1)";
     DynamicForm.submitError := "";
     DynamicForm.existingEmails := [VString "Ann@X.com"] |}.

(** The options of a list request with the given skip and limit *)
Definition list_options (s l : Z) : FormService.options :=
  {| FormService.query := None;
     FormService.skip := Some (Num s);
     FormService.limit := Some (Num l);
     FormService.sort_by := None;
     FormService.order := None;
     FormService.is_duplicate := None |}.


(** Three records of which the first two were submitted at the same time *)
Definition early1 : submission :=
  record 1 (Num 1000) false [("name", VString "Eve"); ("email", VString "eve@x.com")].
Definition early2 : submission :=
  record 2 (Num 1000) false [("name", VString "Dan"); ("email", VString "dan@x.com")].
Definition late3 : submission :=
  record 3 (Num 2000) false [("name", VString "Cy"); ("email", VString "cy@x.com")].

(** The component right after the list [subs] has been fetched *)
Definition view (subs : list submission) : SubmissionsList.state :=
  {| SubmissionsList.submissions := subs;
     SubmissionsList.filteredSubmissions := [];
     SubmissionsList.total := length subs;
     SubmissionsList.searchQuery := SubmissionsList.searchQuery SubmissionsList.initial;
     SubmissionsList.page := SubmissionsList.page SubmissionsList.initial;
     SubmissionsList.pageSize := SubmissionsList.pageSize SubmissionsList.initial;
     SubmissionsList.sortBy := SubmissionsList.sortBy SubmissionsList.initial;
     SubmissionsList.sortOrder := SubmissionsList.sortOrder SubmissionsList.initial |}.

(** ** Strings *)

Lemma starts_with_spec (s q : string) :
  starts_with s q = true ↔ ∃ after, s = q +:+ after.
Proof.
  revert s. induction q as [|a q IH]; intros s; simpl.
  - destruct s; split; eauto.
  - destruct s as [|b s]; simpl.
    + split; [done|]. by intros [? ?].
    + case_decide as Hab; [subst b|].
      * rewrite IH. split; intros [t Ht]; exists t; [by rewrite Ht|].
        by injection Ht.
      * split; [done|]. intros [t Ht]. injection Ht as ? ?. congruence.
Qed.

Lemma includes_spec (s q : string) : JS.includes s q = true ↔ Substring q s.
Proof.
  unfold Substring. induction s as [|c s IH].
  - change (JS.includes "" q) with (starts_with "" q || false).
    rewrite orb_false_r, starts_with_spec. split.
    + intros [t Ht]. by exists "", t.
    + intros (pre & post & Hs). destruct pre; [eauto|done].
  - change (JS.includes (String c s) q)
      with (starts_with (String c s) q || JS.includes s q).
    rewrite orb_true_iff, starts_with_spec, IH. split.
    + intros [[t Ht]|(pre & post & Hs)].
      * by exists "", t.
      * exists (String c pre), post. simpl. by rewrite Hs.
    + intros (pre & post & Hs). destruct pre as [|d pre].
      * left. eauto.
      * right. exists pre, post. by injection Hs.
Qed.


#[global] Instance Substring_dec (q s : string) : Decision (Substring q s).
Proof.
  destruct (JS.includes s q) eqn:E.
  - left. by apply includes_spec.
  - right. intros Hs. apply includes_spec in Hs. congruence.
Defined.

#[global] Instance present_dec (v : value) : Decision (present v).
Proof. unfold present. apply _. Defined.

#[global] Instance claimed_match_dec (q : string) (sub : submission) :
  Decision (claimed_match q sub).
Proof. unfold claimed_match, field_contains, contains_ci. apply _. Defined.

Lemma lower_char_idem (c : ascii) : lower_char (lower_char c) = lower_char c.
Proof.
  destruct c as [[] [] [] [] [] [] [] []]; reflexivity.
Qed.

Lemma lower_idem (s : string) : lower (lower s) = lower s.
Proof. induction s as [|c s IH]; simpl; [done|]. by rewrite lower_char_idem, IH. Qed.



Lemma trim_empty : trim "" = "".
Proof. reflexivity. Qed.





(** ** The search filter *)


Lemma truthy_string (s : string) : truthy (VString s) = false ↔ s = "".
Proof.
  simpl. rewrite negb_false_iff. apply String.eqb_eq.
Qed.

Lemma reflect_bool_decide (b : bool) (P : Prop) `{Decision P} :
  (b = true ↔ P) → b = bool_decide P.
Proof. intros Hb. destruct b; case_bool_decide; intuition congruence. Qed.









Example search_ann_both :
  SubmissionsList.search "ANN" [ann; bob] = Normal [ann; bob].
Proof. vm_compute. reflexivity. Qed.

Example search_bob_only :
  SubmissionsList.search "bOb" [ann; bob] = Normal [bob]
  ∧ filter (claimed_match "bOb") [ann; bob] = [bob].
Proof. split; vm_compute; reflexivity. Qed.

(** ** Array.prototype.sort: permutation, order, stability *)

Section Array_sort.
Context {A : Type} (cmp : A → A → completion Z).

Lemma insert_perm (x : A) (l l' : list A) :
  JSArray.insert cmp x l = Normal l' → l' ≡ₚ x :: l.
Proof.
  revert l'. induction l as [|y l IH]; intros l'; cbn [JSArray.insert].
  - by intros [= <-].
  - destruct (cmp x y) as [c|e]; cbn [JS.bind]; [|done].
    destruct (0 <? c).
    + destruct (JSArray.insert cmp x l) as [r|e]; cbn [JS.bind]; [|done].
      intros [= <-]. rewrite (IH r eq_refl). apply Permutation_swap.
    + by intros [= <-].
Qed.

Lemma sort_perm (l l' : list A) : JSArray.sort cmp l = Normal l' → l' ≡ₚ l.
Proof.
  revert l'. induction l as [|x l IH]; intros l'; cbn [JSArray.sort].
  - by intros [= <-].
  - destruct (JSArray.sort cmp l) as [r|e]; cbn [JS.bind]; [|done].
    intros Hins. apply insert_perm in Hins. by rewrite Hins, (IH r eq_refl).
Qed.

Lemma sort_length (l l' : list A) :
  JSArray.sort cmp l = Normal l' → length l' = length l.
Proof. intros Hs. by rewrite (sort_perm _ _ Hs). Qed.

Section returns.
Context (ok : A → Prop).
Hypothesis cmp_returns : ∀ a b, ok a → ok b → returns (cmp a b).

Lemma insert_returns (x : A) (l : list A) :
  ok x → Forall ok l → returns (JSArray.insert cmp x l).
Proof.
  intros Hx. induction 1 as [|y l Hy Hl IH]; cbn [JSArray.insert].
  - by eexists.
  - destruct (cmp_returns x y Hx Hy) as [c ->]. cbn [JS.bind].
    destruct (0 <? c); [|by eexists].
    destruct IH as [r ->]. by eexists.
Qed.

Lemma sort_returns (l : list A) : Forall ok l → returns (JSArray.sort cmp l).
Proof.
  induction 1 as [|x l Hx Hl IH]; cbn [JSArray.sort].
  - by eexists.
  - destruct IH as [r Hr]. rewrite Hr. cbn [JS.bind].
    apply insert_returns; [done|].
    by rewrite (sort_perm _ _ Hr).
Qed.
End returns.

Section sorted.
Context (ok : A → Prop) (R : relation A) `{!Transitive R}.
Hypothesis cmp_order :
  ∀ a b c, ok a → ok b → cmp a b = Normal c → if 0 <? c then R b a else R a b.

Lemma insert_sorted (x : A) (l l' : list A) :
  ok x → Forall ok l → StronglySorted R l →
  JSArray.insert cmp x l = Normal l' → StronglySorted R l'.
Proof.
  intros Hx Hl Hs. revert l'.
  induction Hs as [|y l Hs IH Hy]; intros l'; cbn [JSArray.insert].
  - intros [= <-]. repeat constructor.
  - apply Forall_cons in Hl as [Hoky Hl].
    destruct (cmp x y) as [c|e] eqn:Hc; cbn [JS.bind]; [|done].
    pose proof (cmp_order x y c Hx Hoky Hc) as Hxy.
    destruct (0 <? c).
    + destruct (JSArray.insert cmp x l) as [r|e] eqn:Hr; cbn [JS.bind]; [|done].
      intros [= <-]. constructor; [by apply IH|].
      rewrite (insert_perm _ _ _ Hr). by constructor.
    + intros [= <-]. constructor; [by constructor|].
      constructor; [done|]. eapply Forall_impl; [exact Hy|].
      intros z Hz. by trans y.
Qed.

Lemma sort_sorted (l l' : list A) :
  Forall ok l → JSArray.sort cmp l = Normal l' → StronglySorted R l'.
Proof.
  intros Hl. revert l'. induction Hl as [|x l Hx Hl IH]; intros l'; cbn [JSArray.sort].
  - intros [= <-]. constructor.
  - destruct (JSArray.sort cmp l) as [r|e] eqn:Hr; cbn [JS.bind]; [|done].
    apply insert_sorted; [done| |by apply IH].
    by rewrite (sort_perm _ _ Hr).
Qed.
End sorted.

Section stable.
Context (P : A → Prop) `{!∀ x, Decision (P x)}.
Hypothesis cmp_tie : ∀ a b c, P a → P b → cmp a b = Normal c → (0 <? c) = false.

Lemma insert_stable (x : A) (l l' : list A) :
  JSArray.insert cmp x l = Normal l' → filter P l' = filter P (x :: l).
Proof.
  revert l'. induction l as [|y l IH]; intros l'; cbn [JSArray.insert].
  - by intros [= <-].
  - destruct (cmp x y) as [c|e] eqn:Hc; cbn [JS.bind]; [|done].
    destruct (0 <? c) eqn:Hpos; [|by intros [= <-]].
    destruct (JSArray.insert cmp x l) as [r|e]; cbn [JS.bind]; [|done].
    intros [= <-]. rewrite !filter_cons, (IH r eq_refl), filter_cons.
    destruct (decide (P x)) as [Hx|Hx]; [|done].
    destruct (decide (P y)) as [Hy|Hy]; [|done].
    rewrite (cmp_tie x y c Hx Hy Hc) in Hpos. done.
Qed.

Lemma sort_stable (l l' : list A) :
  JSArray.sort cmp l = Normal l' → filter P l' = filter P l.
Proof.
  revert l'. induction l as [|x l IH]; intros l'; cbn [JSArray.sort].
  - by intros [= <-].
  - destruct (JSArray.sort cmp l) as [r|e]; cbn [JS.bind]; [|done].
    intros Hins. apply insert_stable in Hins.
    by rewrite Hins, !filter_cons, (IH r eq_refl).
Qed.
End stable.

End Array_sort.

Section stable_unique.
Context {A C : Type} `{EqDecision C} (cls : A → C) (R : relation A).
Hypothesis R_antisym : ∀ a b, R a b → R b a → cls a = cls b.

(** Two stable arrangements of the same list that are both in order are the
    same list: the order fixes the position of the classes, stability the
    order within each class. *)
Lemma stable_sorted_unique (l1 l2 : list A) :
  l1 ≡ₚ l2 → StronglySorted R l1 → StronglySorted R l2 →
  (∀ c, filter (λ x, cls x = c) l1 = filter (λ x, cls x = c) l2) →
  l1 = l2.
Proof.
  revert l2. induction l1 as [|x l1 IH]; intros l2 Hperm Hs1 Hs2 Hst.
  { by apply Permutation_nil_l in Hperm. }
  destruct l2 as [|y l2]; [by apply Permutation_nil_r in Hperm|].
  apply StronglySorted_inv in Hs1 as [Hs1 Hx], Hs2 as [Hs2 Hy].
  assert (x = y) as <-.
  { pose proof (Hst (cls x)) as Hc. rewrite !filter_cons in Hc.
    rewrite decide_True in Hc by done.
    destruct (decide (cls y = cls x)) as [Heq|Hne]; [by injection Hc|].
    exfalso. apply Hne. symmetry. apply R_antisym.
    - assert (y ∈ l1) as Hin.
      { assert (y ∈ x :: l1) as [->|?]%elem_of_cons by (rewrite Hperm; left); done. }
      by eapply Forall_forall in Hx.
    - assert (x ∈ l2) as Hin.
      { assert (x ∈ y :: l2) as [->|?]%elem_of_cons by (rewrite <-Hperm; left); done. }
      by eapply Forall_forall in Hy. }
  f_equal. apply IH; [by apply Permutation_cons_inv in Hperm|done..|].
  intros c. specialize (Hst c). rewrite !filter_cons in Hst.
  destruct (decide (cls x = c)); [by injection Hst|done].
Qed.
End stable_unique.

(** ** The comparator of sortSubmissions *)

Import SubmissionsList.

Lemma text_key_spec (v : value) :
  falsy_or_string v = true → text_key v = Normal (KStr (lower (text_of v))).
Proof.
  intros Hv. unfold text_key, or_else.
  destruct v as [| |[]|[z|]|s]; try done.
  - simpl in Hv. apply negb_true_iff in Hv. cbn [truthy]. by rewrite Hv.
  - destruct (truthy (VString s)) eqn:Ht; [done|].
    by apply truthy_string in Ht as ->.
Qed.

Lemma age_key_spec (v : value) : age_key v = KNum (Num (int_or_zero (parseInt v))).
Proof.
  unfold age_key. destruct (parseInt v) as [z|]; [|done].
  cbn [truthy int_or_zero]. destruct (z =? 0) eqn:Hz; [|done].
  apply Z.eqb_eq in Hz as ->. done.
Qed.

(** Which key the switch selects does not depend on the record. *)
Lemma sort_key_cases (sortBy : string) :
  (∀ a, sort_key sortBy a = Normal (KNum (Num (id a))))
  ∨ (sortBy = "submitted_at" ∧ ∀ a, sort_key sortBy a = Normal (KNum (submitted_at a)))
  ∨ (∀ a, sort_key sortBy a = Normal (age_key (field a "age")))
  ∨ (∃ f, f ∈ ["name"; "email"; "gender"] ∧ ∀ a, sort_key sortBy a = text_key (field a f)).
Proof.
  unfold sort_key, field.
  destruct (String.eqb sortBy "id"); [by left|].
  destruct (String.eqb sortBy "submitted_at") eqn:Hsb.
  { right; left. split; [by apply String.eqb_eq|done]. }
  destruct (String.eqb sortBy "name").
  { right; right; right. exists "name". split; [repeat constructor|done]. }
  destruct (String.eqb sortBy "email").
  { right; right; right. exists "email". split; [repeat constructor|done]. }
  destruct (String.eqb sortBy "age"); [by right; right; left|].
  destruct (String.eqb sortBy "gender").
  { right; right; right. exists "gender". split; [repeat constructor|done]. }
  by left.
Qed.

Lemma text_fields_ok_field (a : submission) (f : string) :
  text_fields_ok a → f ∈ ["name"; "email"; "gender"] → falsy_or_string (field a f) = true.
Proof.
  intros (Hn & He & Hg) Hf.
  repeat (apply elem_of_cons in Hf as [->|Hf]; [done|]).
  by apply elem_of_nil in Hf.
Qed.

Lemma sort_key_comparable (sortBy : string) (a b : submission) :
  text_fields_ok a → text_fields_ok b →
  (sortBy = "submitted_at" → valid_time a ∧ valid_time b) →
  ∃ ka kb, sort_key sortBy a = Normal ka ∧ sort_key sortBy b = Normal kb
           ∧ comparable ka kb.
Proof.
  intros Ha Hb Ht.
  destruct (sort_key_cases sortBy) as [Hk|[[Hsb Hk]|[Hk|(f & Hf & Hk)]]].
  - rewrite !Hk. by eexists _, _.
  - destruct (Ht Hsb) as [Hta Htb]. unfold valid_time in *.
    rewrite !Hk. eexists _, _. repeat split.
    by destruct (submitted_at a), (submitted_at b).
  - rewrite !Hk, !age_key_spec. by eexists _, _.
  - rewrite !Hk, !text_key_spec by by apply text_fields_ok_field.
    by eexists _, _.
Qed.

Lemma string_ltb_le (x y : string) : string_ltb x y = true → String.le x y.
Proof.
  unfold string_ltb, String.ltb, String.le, String.leb.
  by destruct (String.compare x y).
Qed.

Lemma string_not_ltb_le (x y : string) : string_ltb y x = false → String.le x y.
Proof.
  unfold string_ltb, String.ltb, String.le, String.leb.
  rewrite (String.compare_antisym x y). by destruct (String.compare y x).
Qed.

Lemma key_ltb_le (ka kb : key) : comparable ka kb → key_ltb ka kb = true → key_le ka kb.
Proof.
  destruct ka as [[x|]|x], kb as [[y|]|y]; try done; simpl; intros _ Hlt.
  - apply Z.ltb_lt in Hlt. lia.
  - by apply string_ltb_le.
Qed.

Lemma key_not_ltb_le (ka kb : key) : comparable ka kb → key_ltb kb ka = false → key_le ka kb.
Proof.
  destruct ka as [[x|]|x], kb as [[y|]|y]; try done; simpl; intros _ Hlt.
  - apply Z.ltb_ge in Hlt. lia.
  - by apply string_not_ltb_le.
Qed.

Lemma comparable_sym (ka kb : key) : comparable ka kb → comparable kb ka.
Proof. by destruct ka as [[x|]|x], kb as [[y|]|y]. Qed.

Lemma key_ltb_irrefl (k : key) : key_ltb k k = false.
Proof.
  destruct k as [[x|]|x]; simpl; [apply Z.ltb_irrefl|done|].
  unfold string_ltb, String.ltb.
  destruct (String.compare x x) eqn:Hc; try done.
  pose proof (String.compare_antisym x x) as Ha. rewrite Hc in Ha. done.
Qed.

#[global] Instance key_le_trans : Transitive key_le.
Proof.
  intros [[x|]|x] [[y|]|y] [[z|]|z]; simpl; try done; [lia|].
  intros ? ?. by trans y.
Qed.

#[global] Instance in_order_trans (sortBy sortOrder : string) :
  Transitive (in_order sortBy sortOrder).
Proof.
  intros a b c (ka & kb & Ha & Hb & Hab) (kb' & kc & Hb' & Hc & Hbc).
  rewrite Hb in Hb'. injection Hb' as <-.
  exists ka, kc. repeat split; [done..|].
  destruct (String.eqb sortOrder "asc"); by trans kb.
Qed.

#[global] Instance newest_first_trans : Transitive newest_first.
Proof.
  intros a b c. unfold newest_first.
  destruct (submitted_at a), (submitted_at b), (submitted_at c); try done. lia.
Qed.

Lemma key_le_antisym (ka kb : key) : key_le ka kb → key_le kb ka → ka = kb.
Proof.
  destruct ka as [[x|]|x], kb as [[y|]|y]; simpl; try done.
  - intros ? ?. do 2 f_equal. lia.
  - intros ? ?. f_equal. by apply (anti_symm String.le).
Qed.

Lemma in_order_antisym (sortBy sortOrder : string) (a b : submission) :
  in_order sortBy sortOrder a b → in_order sortBy sortOrder b a →
  sort_key sortBy a = sort_key sortBy b.
Proof.
  intros (ka & kb & Ha & Hb & Hab) (kb' & ka' & Hb' & Ha' & Hba).
  rewrite Ha in Ha'. rewrite Hb in Hb'. injection Ha' as <-. injection Hb' as <-.
  rewrite Ha, Hb. f_equal.
  destruct (String.eqb sortOrder "asc"); by apply key_le_antisym.
Qed.

(** The comparator on two records whose keys it can order *)
Lemma compare_spec (sortBy sortOrder : string) (a b : submission) (ka kb : key) :
  sort_key sortBy a = Normal ka → sort_key sortBy b = Normal kb →
  compare sortBy sortOrder a b
  = Normal (if key_ltb ka kb then (if String.eqb sortOrder "asc" then -1 else 1)
            else if key_ltb kb ka then (if String.eqb sortOrder "asc" then 1 else -1)
            else 0).
Proof.
  intros Ha Hb. unfold compare. rewrite Ha, Hb. cbn [JS.bind].
  by repeat case_match.
Qed.

Lemma compare_in_order (sortBy sortOrder : string) (a b : submission) (c : Z) :
  (∃ ka kb, sort_key sortBy a = Normal ka ∧ sort_key sortBy b = Normal kb
            ∧ comparable ka kb) →
  compare sortBy sortOrder a b = Normal c →
  if 0 <? c then in_order sortBy sortOrder b a else in_order sortBy sortOrder a b.
Proof.
  intros (ka & kb & Ha & Hb & Hk).
  rewrite (compare_spec _ _ _ _ _ _ Ha Hb). intros [= <-].
  pose proof (comparable_sym _ _ Hk) as Hk'.
  destruct (key_ltb ka kb) eqn:Hab; [|destruct (key_ltb kb ka) eqn:Hba];
    destruct (String.eqb sortOrder "asc") eqn:Hso; unfold Z.ltb; cbn [Z.compare];
    unfold in_order; rewrite Hso;
    try (exists ka, kb; by eauto 6 using key_ltb_le, key_not_ltb_le);
    try (exists kb, ka; by eauto 6 using key_ltb_le, key_not_ltb_le).
Qed.

Lemma compare_tie (sortBy sortOrder : string) (k : key) (a b : submission) (c : Z) :
  has_key sortBy k a → has_key sortBy k b →
  compare sortBy sortOrder a b = Normal c → (0 <? c) = false.
Proof.
  unfold has_key. intros Ha Hb.
  rewrite (compare_spec _ _ _ _ _ _ Ha Hb), key_ltb_irrefl. by intros [= <-].
Qed.

Lemma sort_key_returns (sortBy : string) (a : submission) :
  text_fields_ok a → returns (sort_key sortBy a).
Proof.
  intros Ha.
  destruct (sort_key_cases sortBy) as [Hk|[[_ Hk]|[Hk|(f & Hf & Hk)]]];
    rewrite Hk; try by eexists.
  rewrite text_key_spec by by apply text_fields_ok_field. by eexists.
Qed.

Lemma compare_returns (sortBy sortOrder : string) (a b : submission) :
  text_fields_ok a → text_fields_ok b → returns (compare sortBy sortOrder a b).
Proof.
  intros Ha Hb.
  destruct (sort_key_returns sortBy a Ha) as [ka Hka].
  destruct (sort_key_returns sortBy b Hb) as [kb Hkb].
  rewrite (compare_spec _ _ _ _ _ _ Hka Hkb). by eexists.
Qed.

Lemma sortSubmissions_returns (sortBy sortOrder : string) (data : list submission) :
  Forall text_fields_ok data → returns (sortSubmissions sortBy sortOrder data).
Proof.
  apply sort_returns. intros a b. apply compare_returns.
Qed.

(** The result of [sortSubmissions] on records whose keys can be ordered: a
    rearrangement of the input, in order, in which records of equal key keep
    the order they had in the input. *)
Lemma sortSubmissions_spec (sortBy sortOrder : string) (data : list submission) :
  Forall text_fields_ok data →
  (sortBy = "submitted_at" → Forall valid_time data) →
  ∃ sorted,
    sortSubmissions sortBy sortOrder data = Normal sorted
    ∧ sorted ≡ₚ data
    ∧ StronglySorted (in_order sortBy sortOrder) sorted
    ∧ ∀ k, filter (has_key sortBy k) sorted = filter (has_key sortBy k) data.
Proof.
  intros Hdata Htime.
  destruct (sortSubmissions_returns sortBy sortOrder data Hdata) as [sorted Hs].
  exists sorted. split; [done|]. split; [by eapply sort_perm|]. split.
  - apply (sort_sorted (compare sortBy sortOrder)
             (λ a, text_fields_ok a ∧ (sortBy = "submitted_at" → valid_time a))
             (in_order sortBy sortOrder)) with data; [| |exact Hs].
    + intros a b c [Ha Hta] [Hb Htb]. apply compare_in_order.
      apply sort_key_comparable; auto.
    + apply Forall_forall. intros a Ha. split.
      * by eapply Forall_forall in Hdata.
      * intros Hsb. specialize (Htime Hsb). by eapply Forall_forall in Htime.
  - intros k. eapply (sort_stable (compare sortBy sortOrder)); [|exact Hs].
    intros a b c. apply compare_tie.
Qed.

(** On such records the result does not depend on how the engine sorts: any
    rearrangement of the input that is in order and keeps the records of
    equal key in their input order is the list [sortSubmissions] returns. *)
Lemma sortSubmissions_unique (sortBy sortOrder : string)
    (data sorted other : list submission) :
  Forall text_fields_ok data →
  sortSubmissions sortBy sortOrder data = Normal sorted →
  StronglySorted (in_order sortBy sortOrder) sorted →
  other ≡ₚ data →
  StronglySorted (in_order sortBy sortOrder) other →
  (∀ k, filter (has_key sortBy k) other = filter (has_key sortBy k) data) →
  other = sorted.
Proof.
  intros Hdata Hs Hsorted Hperm Hother Hstable.
  pose proof (sort_perm _ _ _ Hs) as Hperm'.
  apply (stable_sorted_unique (sort_key sortBy) (in_order sortBy sortOrder)).
  - apply in_order_antisym.
  - by rewrite Hperm, Hperm'.
  - done.
  - done.
  - intros [k|e].
    + rewrite (list_filter_iff _ (has_key sortBy k) other),
        (list_filter_iff _ (has_key sortBy k) sorted) by done.
      rewrite (Hstable k). symmetry.
      eapply (sort_stable (compare sortBy sortOrder)); [|exact Hs].
      intros a b c. apply compare_tie.
    + assert (∀ l, l ≡ₚ data → filter (λ x, sort_key sortBy x = Throw e) l = []) as Hnone.
      { intros l Hl.
        destruct (filter (λ x, sort_key sortBy x = Throw e) l) as [|a r] eqn:Hfl; [done|].
        assert (a ∈ filter (λ x, sort_key sortBy x = Throw e) l) as Ha
          by (rewrite Hfl; left).
        apply list_elem_of_filter in Ha as [Hthrow Ha].
        rewrite Hl in Ha. eapply Forall_forall in Hdata; [|exact Ha].
        destruct (sort_key_returns sortBy a Hdata) as [k Hk]. congruence. }
      by rewrite !Hnone.
Qed.

(** ** The search step *)

Lemma text_clause_returns (v : value) (q : string) :
  falsy_or_string v = true → returns (text_clause v q).
Proof.
  intros Hv. unfold text_clause.
  destruct (truthy v) eqn:Ht; [|by eexists].
  destruct v as [| |b|n|s]; try done;
    try (unfold falsy_or_string in Hv; rewrite Ht in Hv; done).
  by eexists.
Qed.

Lemma matchesQuery_returns (q : string) (sub : submission) :
  text_fields_ok sub → returns (matchesQuery q sub).
Proof.
  intros (Hn & He & Hg). unfold matchesQuery.
  fold (field sub "name") (field sub "email") (field sub "age") (field sub "gender").
  destruct (text_clause_returns _ q Hn) as [b1 ->].
  destruct (text_clause_returns _ q He) as [b2 ->].
  destruct (text_clause_returns _ q Hg) as [b3 ->].
  unfold age_clause, id_clause, orelse. cbn [JS.bind].
  repeat (case_match; cbn [JS.bind]); by eexists.
Qed.

Lemma Array_filter_returns {A} (p : A → completion bool) (l : list A) :
  Forall (λ x, returns (p x)) l → returns (JSArray.filter p l).
Proof.
  induction 1 as [|x l [b Hx] _ [r IH]]; cbn [JSArray.filter]; [by eexists|].
  rewrite Hx, IH. by eexists.
Qed.

Lemma Array_filter_kept {A} (p : A → completion bool) (l l' : list A) :
  JSArray.filter p l = Normal l' →
  l' `sublist_of` l ∧ Forall (λ x, p x = Normal true) l'.
Proof.
  revert l'. induction l as [|x l IH]; intros l'; cbn [JSArray.filter].
  - intros [= <-]. by split.
  - destruct (p x) as [b|e] eqn:Hx; cbn [JS.bind]; [|done].
    destruct (JSArray.filter p l) as [r|e]; cbn [JS.bind]; [|done].
    destruct (IH r eq_refl) as [Hsub Hall].
    intros [= <-]. destruct b; split.
    + by apply sublist_skip.
    + by constructor.
    + by apply sublist_cons.
    + done.
Qed.

Lemma search_returns (q : string) (subs : list submission) :
  Forall text_fields_ok subs → returns (search q subs).
Proof.
  intros Hsubs. unfold search. case_match; [|by eexists].
  apply Array_filter_returns. eapply Forall_impl; [exact Hsubs|].
  intros sub. apply matchesQuery_returns.
Qed.

Lemma search_sublist (q : string) (subs found : list submission) :
  search q subs = Normal found → found `sublist_of` subs.
Proof.
  unfold search. case_match.
  - intros Hf. by apply Array_filter_kept in Hf as [? _].
  - by intros [= <-].
Qed.

(** ** The page slice *)

Lemma slice_take_drop {A} (l : list A) (start size : nat) :
  JSArray.slice l (Z.of_nat start) (Z.of_nat start + Z.of_nat size)
  = take size (drop start l).
Proof.
  unfold JSArray.slice.
  destruct (Z.of_nat start <? 0) eqn:H1; [apply Z.ltb_lt in H1; lia|].
  destruct (Z.of_nat start + Z.of_nat size <? 0) eqn:H2; [apply Z.ltb_lt in H2; lia|].
  destruct (decide (start ≤ length l)%nat) as [Hle|Hgt].
  - replace (Z.to_nat (Z.of_nat start `min` Z.of_nat (length l))) with start by lia.
    destruct (decide (size ≤ length l - start)%nat) as [Hn|Hn].
    + f_equal. lia.
    + rewrite !take_ge; [done|rewrite length_drop; lia..].
  - rewrite (drop_ge l start) by lia.
    rewrite take_nil.
    replace (Z.to_nat _) with 0%nat by lia. done.
Qed.

Lemma applyFilters_spec (st : state) (found sorted : list submission) :
  search (searchQuery st) (submissions st) = Normal found →
  sortSubmissions (sortBy st) (sortOrder st) found = Normal sorted →
  applyFilters st
  = Normal {| submissions := submissions st;
              filteredSubmissions := take (pageSize st) (drop (page st * pageSize st) sorted);
              total := length sorted;
              searchQuery := searchQuery st;
              page := page st;
              pageSize := pageSize st;
              sortBy := sortBy st;
              sortOrder := sortOrder st |}.
Proof.
  intros Hf Hs. unfold applyFilters. rewrite Hf. cbn [JS.bind]. rewrite Hs. cbn [JS.bind].
  by rewrite slice_take_drop.
Qed.

Lemma applyFilters_inv (st st' : state) :
  applyFilters st = Normal st' →
  ∃ found sorted,
    search (searchQuery st) (submissions st) = Normal found
    ∧ sortSubmissions (sortBy st) (sortOrder st) found = Normal sorted
    ∧ filteredSubmissions st' = take (pageSize st) (drop (page st * pageSize st) sorted)
    ∧ total st' = length sorted.
Proof.
  intros Hst. destruct (search (searchQuery st) (submissions st)) as [found|e] eqn:Hf.
  - destruct (sortSubmissions (sortBy st) (sortOrder st) found) as [sorted|e] eqn:Hs.
    + rewrite (applyFilters_spec st found sorted Hf Hs) in Hst. injection Hst as <-.
      by exists found, sorted.
    + unfold applyFilters in Hst. rewrite Hf in Hst. cbn [JS.bind] in Hst.
      by rewrite Hs in Hst.
  - unfold applyFilters in Hst. by rewrite Hf in Hst.
Qed.

Lemma Forall_sublist_of {A} (P : A → Prop) (l1 l2 : list A) :
  l1 `sublist_of` l2 → Forall P l2 → Forall P l1.
Proof.
  intros Hs. rewrite !Forall_forall. intros H x Hx.
  apply H. by apply (sublist_subseteq _ _ Hs).
Qed.

Lemma applyFilters_returns (st : state) :
  Forall text_fields_ok (submissions st) → returns (applyFilters st).
Proof.
  intros Hsubs.
  destruct (search_returns (searchQuery st) _ Hsubs) as [found Hf].
  assert (Forall text_fields_ok found) as Hfound.
  { eapply Forall_sublist_of; [|exact Hsubs]. by eapply search_sublist. }
  destruct (sortSubmissions_returns (sortBy st) (sortOrder st) _ Hfound) as [sorted Hs].
  rewrite (applyFilters_spec st found sorted Hf Hs). by eexists.
Qed.

(** ** Deterministic, stable ordering *)




(** ** Sorted lists *)

Lemma StronglySorted_sublist_of {A} (R : relation A) (l1 l2 : list A) :
  l1 `sublist_of` l2 → StronglySorted R l2 → StronglySorted R l1.
Proof.
  induction 1 as [|x l1 l2 Hsub IH|x l1 l2 Hsub IH]; intros Hs.
  - constructor.
  - apply StronglySorted_inv in Hs as [Hs Hall].
    constructor; [by apply IH|]. by eapply Forall_sublist_of.
  - apply StronglySorted_inv in Hs as [Hs _]. by apply IH.
Qed.




(** ** The default order *)




(** ** Paging after filtering *)



(** ** Page boundaries *)

(** C8.  Over a result set of [total] records, the page that starts at offset
    total - 1 holds exactly one record (page size at least 1), the page that
    starts at offset total holds none, and the total reported is the same
    whichever page is requested.  The effect returns on every list of records
    whose text fields can be lower-cased. *)
Theorem page_boundaries (st : state) :
  (Forall text_fields_ok (submissions st) → returns (applyFilters st))
  ∧ ∀ st', applyFilters st = Normal st' →
      ((1 ≤ pageSize st)%nat → (page st * pageSize st + 1)%nat = total st' →
         length (filteredSubmissions st') = 1%nat)
      ∧ ((page st * pageSize st)%nat = total st' → filteredSubmissions st' = [])
      ∧ ∀ p, ∃ st'', applyFilters (setPage p st) = Normal st'' ∧ total st'' = total st'.
Proof.
  split; [apply applyFilters_returns|]. intros st' Hst'.
  apply applyFilters_inv in Hst' as (found & sorted & Hf & Hs & Hpage & Htotal).
  rewrite Hpage, Htotal. split; [|split].
  - intros Hsize Hstart. rewrite length_take, length_drop. lia.
  - intros Hstart. rewrite drop_ge by lia. apply take_nil.
  - intros p. eexists.
    split; [exact (applyFilters_spec (setPage p st) found sorted Hf Hs)|done].
Qed.

Lemma page_boundaries_witness :
  Forall text_fields_ok
    (submissions (setPage 1 (setPageSize 2 (view [late3; early1; early2]))))
  ∧ ∃ st',
      applyFilters (setPage 1 (setPageSize 2 (view [late3; early1; early2]))) = Normal st'
      ∧ (1 ≤ pageSize (setPage 1 (setPageSize 2 (view [late3; early1; early2]))))%nat
      ∧ (page (setPage 1 (setPageSize 2 (view [late3; early1; early2])))
         * pageSize (setPage 1 (setPageSize 2 (view [late3; early1; early2]))) + 1)%nat
        = total st'
      ∧ length (filteredSubmissions st') = 1%nat.
Proof.
  assert (Hok : Forall text_fields_ok
                  (submissions (setPage 1 (setPageSize 2 (view [late3; early1; early2]))))).
  { repeat constructor; vm_compute; reflexivity. }
  split; [exact Hok|].
  destruct (page_boundaries (setPage 1 (setPageSize 2 (view [late3; early1; early2]))))
    as [Hret Hpage].
  destruct (Hret Hok) as [st' Hst']. exists st'.
  destruct (Hpage st' Hst') as (Hone & _ & _).
  assert (Hsize : (1 ≤ pageSize (setPage 1 (setPageSize 2 (view [late3; early1; early2]))))%nat).
  { vm_compute. lia. }
  assert (Hstart : (page (setPage 1 (setPageSize 2 (view [late3; early1; early2])))
                    * pageSize (setPage 1 (setPageSize 2 (view [late3; early1; early2]))) + 1)%nat
                   = total st').
  { vm_compute in Hst'. injection Hst' as <-. reflexivity. }
  split; [exact Hst'|]. split; [exact Hsize|]. split; [exact Hstart|].
  exact (Hone Hsize Hstart).
Defined.

(** Three records, two per page: the second page starts at offset 2 = total - 1
    and shows one record; a third page would start at offset 4 and is empty. *)
Example last_page_one_record :
  ∃ st', applyFilters (setPage 1 (setPageSize 2 (view [late3; early1; early2]))) = Normal st'
         ∧ total st' = 3%nat ∧ id <$> filteredSubmissions st' = [2].
Proof. eexists. split; [vm_compute; reflexivity|]. by split. Qed.

Example page_at_total_empty :
  ∃ st', applyFilters (setPage 1 (setPageSize 3 (view [late3; early1; early2]))) = Normal st'
         ∧ total st' = 3%nat ∧ filteredSubmissions st' = [].
Proof. eexists. split; [vm_compute; reflexivity|]. by split. Qed.

(** ** Coercion of the sort keys *)






Example compare_age_desc : compare "age" "desc" ann bob = Normal 1.
Proof. vm_compute. reflexivity. Qed.

Example compare_name_ignores_case : compare "name" "asc" ann ann_again = Normal 0.
Proof. vm_compute. reflexivity. Qed.

Example age_key_unparsable :
  age_key (VString "n/a") = KNum (Num 0) ∧ age_key VUndefined = KNum (Num 0)
  ∧ age_key (VString "42") = KNum (Num 42) ∧ age_key (VNumber (Num 42)) = KNum (Num 42).
Proof. repeat split; vm_compute; reflexivity. Qed.

(** ** Malformed records *)








Example zero_age_matches_only_by_id :
  matchesQuery "0" (record 10 (Num 1) false [("age", VNumber (Num 0))]) = Normal true
  ∧ matchesQuery "0" (record 11 (Num 1) false [("age", VNumber (Num 0))]) = Normal false
  ∧ matchesQuery "0" (record 11 (Num 1) false [("age", VString "0")]) = Normal true.
Proof. repeat split; vm_compute; reflexivity. Qed.

(** ** Request parameters *)

Lemma find_after_query (o : FormService.options) (k : string) (l : list (string * string)) :
  k ≠ "query" →
  List.find (λ kv, String.eqb (fst kv) k)
    (FormService.string_param "query" (FormService.query o) ++ l)
  = List.find (λ kv, String.eqb (fst kv) k) l.
Proof.
  intros Hk. unfold FormService.string_param.
  assert (String.eqb "query" k = false) as Hq by (apply String.eqb_neq; congruence).
  destruct (FormService.query o) as [q|]; [destruct (truthy (VString q))|];
    cbn [app List.find fst]; rewrite ?Hq; done.
Qed.

(** C5 (amended).  In every list and search request the limit sent is the
    requested limit, 50 when none (or 0) is requested, cut down to 1000 when
    it is larger; the skip sent is the requested skip as it is, negative or
    not, and 0 when none is requested. *)
Theorem request_limit_and_skip (o : FormService.options) :
  ∃ l s : Z,
    FormService.get "limit" (FormService.getSubmissions o) = Some (pretty l)
    ∧ FormService.get "limit" (FormService.searchSubmissions o) = Some (pretty l)
    ∧ FormService.get "skip" (FormService.getSubmissions o) = Some (pretty s)
    ∧ FormService.get "skip" (FormService.searchSubmissions o) = Some (pretty s)
    ∧ l ≤ 1000
    ∧ (∀ z, FormService.limit o = Some (Num z) → z ≠ 0 → l = Z.min z 1000)
    ∧ (FormService.limit o = None ∨ FormService.limit o = Some NaN
       ∨ FormService.limit o = Some (Num 0) → l = 50)
    ∧ (∀ z, FormService.skip o = Some (Num z) → s = z)
    ∧ (FormService.skip o = None ∨ FormService.skip o = Some NaN → s = 0).
Proof.
  exists (Z.min (match FormService.number_or (FormService.limit o) 50 with
                 | Num z => z | NaN => 0 end) 1000),
         (match FormService.number_or (FormService.skip o) 0 with
          | Num z => z | NaN => 0 end).
  assert (∃ z, FormService.number_or (FormService.limit o) 50 = Num z
               ∧ (∀ x, FormService.limit o = Some (Num x) → x ≠ 0 → z = x)
               ∧ (FormService.limit o = None ∨ FormService.limit o = Some NaN
                  ∨ FormService.limit o = Some (Num 0) → z = 50))
    as (zl & Hzl & Hreq & Hdef).
  { unfold FormService.number_or. destruct (FormService.limit o) as [[x|]|]; cbn [truthy].
    - destruct (x =? 0) eqn:Hx; cbn [negb].
      + apply Z.eqb_eq in Hx as ->. exists 50. split; [done|]. split; [|done].
        by intros ? [= <-].
      + apply Z.eqb_neq in Hx. exists x. split; [done|]. split.
        * by intros ? [= <-].
        * intros [?|[?|[= ->]]]; done.
    - exists 50. by repeat split.
    - exists 50. by repeat split. }
  assert (∃ z, FormService.number_or (FormService.skip o) 0 = Num z
               ∧ (∀ x, FormService.skip o = Some (Num x) → z = x)
               ∧ (FormService.skip o = None ∨ FormService.skip o = Some NaN → z = 0))
    as (zs & Hzs & Hsreq & Hsdef).
  { unfold FormService.number_or. destruct (FormService.skip o) as [[x|]|]; cbn [truthy].
    - destruct (x =? 0) eqn:Hx; cbn [negb].
      + apply Z.eqb_eq in Hx as ->. exists 0. split; [done|]. split; [|done].
        by intros ? [= <-].
      + exists x. split; [done|]. split; [by intros ? [= <-]|]. by intros [?|?].
    - exists 0. by repeat split.
    - exists 0. by repeat split. }
  unfold FormService.get, FormService.getSubmissions, FormService.searchSubmissions.
  cbn [FormService.params].
  rewrite !find_after_query by done.
  rewrite Hzl, Hzs. cbn [FormService.Math_min number_to_string app List.find fst snd fmap].
  change (String.eqb "skip" "limit") with false.
  change (String.eqb "skip" "skip") with true.
  change (String.eqb "limit" "limit") with true. cbv iota.
  repeat split; try done.
  - lia.
  - intros z Hz Hnz. by rewrite (Hreq z Hz Hnz).
  - intros Hl. by rewrite (Hdef Hl).
Qed.

(** C5 as stated fails on the skip: a requested skip of -5 is sent as -5, it
    is not raised to 0 (the limit 5000 of the same request is cut to 1000). *)
Lemma negative_skip_counterexample :
  FormService.get "skip" (FormService.getSubmissions (list_options (-5) 5000)) = Some "-5"
  ∧ FormService.get "skip" (FormService.searchSubmissions (list_options (-5) 5000)) = Some "-5"
  ∧ FormService.get "limit" (FormService.getSubmissions (list_options (-5) 5000)) = Some "1000".
Proof. repeat split; vm_compute; reflexivity. Qed.

(** ** The e-mails on record *)

Lemma elem_of_distinct_from (seen l : list value) (x : value) :
  x ∈ JSArray.distinct_from seen l ↔ x ∈ l ∧ x ∉ seen.
Proof.
  revert seen. induction l as [|y l IH]; intros seen; cbn [JSArray.distinct_from].
  - split; [by intros ?%elem_of_nil|by intros [?%elem_of_nil _]].
  - destruct (decide (y ∈ seen)) as [Hy|Hy].
    + rewrite IH, elem_of_cons. split; [tauto|].
      intros [[->|?] ?]; [done|tauto].
    + rewrite !elem_of_cons, IH, elem_of_cons.
      destruct (decide (x = y)) as [->|Hxy]; [tauto|]. tauto.
Qed.

Lemma elem_of_Set_values (l : list value) (x : value) : x ∈ JSArray.Set_values l ↔ x ∈ l.
Proof.
  unfold JSArray.Set_values. rewrite elem_of_distinct_from.
  split; [tauto|]. intros Hx. split; [done|]. apply not_elem_of_nil.
Qed.

Lemma NoDup_distinct_from (seen l : list value) : NoDup (JSArray.distinct_from seen l).
Proof.
  revert seen. induction l as [|y l IH]; intros seen; cbn [JSArray.distinct_from].
  - constructor.
  - destruct (decide (y ∈ seen)); [apply IH|].
    constructor; [|apply IH].
    rewrite elem_of_distinct_from, elem_of_cons. tauto.
Qed.

Lemma Array_map_pure {A B} (f : A → completion B) (g : A → B) (l : list A) :
  Forall (λ x, f x = Normal (g x)) l → JSArray.map f l = Normal (g <$> l).
Proof.
  induction 1 as [|x l Hx _ IH]; [done|].
  cbn [JSArray.map]. by rewrite Hx, IH.
Qed.

Lemma emails_of_spec (subs : list submission) :
  Forall (λ s, is_Some (form_data s)) subs →
  DynamicForm.emails_of subs
  = Normal (List.filter truthy ((λ s, field s "email") <$> subs)).
Proof.
  intros Hsubs. unfold DynamicForm.emails_of.
  rewrite (Array_map_pure _ (λ s, field s "email")); [done|].
  eapply Forall_impl; [exact Hsubs|]. intros s [d Hd]. unfold field. by rewrite Hd.
Qed.

Lemma existingEmails_loaded (subs : list submission) (st : DynamicForm.state) (v : value) :
  Forall (λ s, is_Some (form_data s)) subs →
  v ∈ DynamicForm.existingEmails (DynamicForm.loadExistingEmails subs st)
  ↔ truthy v = true ∧ ∃ s, s ∈ subs ∧ field s "email" = v.
Proof.
  intros Hsubs. unfold DynamicForm.loadExistingEmails.
  rewrite emails_of_spec by done. cbn [DynamicForm.existingEmails].
  rewrite elem_of_Set_values, list_elem_of_In, filter_In, <-list_elem_of_In, list_elem_of_fmap.
  split.
  - intros [(s & -> & Hs) Ht]. eauto.
  - intros [Ht (s & Hs & <-)]. eauto.
Qed.

(** ** Validation *)

Section Validation_facts.
Context `{DynamicForm.Doubles}.

Lemma validateField_other (fd : gmap string value) (ex : list value)
    (acc : gmap string (list DynamicForm.message))
    (g : string) (c : DynamicForm.fieldConfig) (f : string) :
  g ≠ f → DynamicForm.validateField fd ex acc (g, c) !! f = acc !! f.
Proof.
  intros Hg. unfold DynamicForm.validateField.
  case_match; [by rewrite lookup_insert_ne|done].
Qed.

Lemma validateField_same (fd : gmap string value) (ex : list value)
    (acc : gmap string (list DynamicForm.message))
    (f : string) (c : DynamicForm.fieldConfig) :
  DynamicForm.validateField fd ex acc (f, c) !! f
  = match DynamicForm.fieldErrors ex f c (prop fd f) with
    | [] => acc !! f
    | errs => Some errs
    end.
Proof.
  unfold DynamicForm.validateField.
  destruct (DynamicForm.fieldErrors ex f c (prop fd f)) as [|m errs]; [done|].
  cbn [length]. case_match eqn:Hpos; [by rewrite lookup_insert_eq|].
  apply Z.ltb_ge in Hpos. lia.
Qed.

Lemma validate_fold_notin (fd : gmap string value) (ex : list value)
    (schema : list (string * DynamicForm.fieldConfig))
    (acc : gmap string (list DynamicForm.message)) (f : string) :
  f ∉ schema.*1 →
  foldl (DynamicForm.validateField fd ex) acc schema !! f = acc !! f.
Proof.
  revert acc. induction schema as [|[g c] schema IH]; intros acc Hf; [done|].
  cbn [foldl]. rewrite fmap_cons, not_elem_of_cons in Hf. destruct Hf as [Hg Hf].
  rewrite IH by done. by apply validateField_other.
Qed.

Lemma validate_fold_in (fd : gmap string value) (ex : list value)
    (schema : list (string * DynamicForm.fieldConfig))
    (acc : gmap string (list DynamicForm.message))
    (f : string) (c : DynamicForm.fieldConfig) :
  NoDup schema.*1 → (f, c) ∈ schema →
  foldl (DynamicForm.validateField fd ex) acc schema !! f
  = match DynamicForm.fieldErrors ex f c (prop fd f) with
    | [] => acc !! f
    | errs => Some errs
    end.
Proof.
  revert acc. induction schema as [|[g d] schema IH]; intros acc Hnd Hin.
  { by apply elem_of_nil in Hin. }
  rewrite fmap_cons in Hnd. apply NoDup_cons in Hnd as [Hg Hnd].
  cbn [foldl]. apply elem_of_cons in Hin as [[= <- <-]|Hin].
  - rewrite validate_fold_notin by done. apply validateField_same.
  - rewrite IH by done. rewrite validateField_other; [done|].
    intros ->. apply Hg. cbn [fst]. apply list_elem_of_fmap. by exists (f, c).
Qed.

(** The entry of [newErrors] for a field of a schema with distinct keys *)
Lemma validateForm_lookup (fd : gmap string value) (ex : list value)
    (schema : list (string * DynamicForm.fieldConfig))
    (f : string) (c : DynamicForm.fieldConfig) :
  NoDup schema.*1 → (f, c) ∈ schema →
  (DynamicForm.validateForm schema fd ex).1 !! f
  = match DynamicForm.fieldErrors ex f c (prop fd f) with
    | [] => None
    | errs => Some errs
    end.
Proof.
  intros Hnd Hin. unfold DynamicForm.validateForm. cbn [fst].
  rewrite (validate_fold_in _ _ _ _ _ _ Hnd Hin). by rewrite lookup_empty.
Qed.

(** A required field left empty keeps its error to the end of the loop. *)
Lemma validate_fold_required (fd : gmap string value) (ex : list value)
    (schema : list (string * DynamicForm.fieldConfig))
    (acc : gmap string (list DynamicForm.message)) (f : string) :
  DynamicForm.is_empty (prop fd f) = true →
  acc !! f = Some [DynamicForm.IsRequired f]
  ∨ (∃ c, (f, c) ∈ schema ∧ DynamicForm.required c = true) →
  foldl (DynamicForm.validateField fd ex) acc schema !! f
  = Some [DynamicForm.IsRequired f].
Proof.
  intros Hempty. revert acc.
  induction schema as [|[g d] schema IH]; intros acc Hacc; cbn [foldl].
  { destruct Hacc as [?|(c & Hin & _)]; [done|]. by apply elem_of_nil in Hin. }
  apply IH. destruct (decide (g = f)) as [->|Hg].
  - rewrite validateField_same. unfold DynamicForm.fieldErrors.
    rewrite Hempty, andb_true_r.
    destruct (DynamicForm.required d) eqn:Hd; cbn [DynamicForm.push_if]; [by left|].
    destruct Hacc as [?|(c & Hin & Hc)]; [by left|].
    apply elem_of_cons in Hin as [[= ->]|Hin]; [congruence|]. right. eauto.
  - rewrite validateField_other by done.
    destruct Hacc as [?|(c & Hin & Hc)]; [by left|].
    apply elem_of_cons in Hin as [[= ? ?]|Hin]; [congruence|]. right. eauto.
Qed.

End Validation_facts.

Section Validation_claims.
Context `{DynamicForm.Doubles}.

Lemma email_exists_error (ex : list value) (f : string) (c : DynamicForm.fieldConfig)
    (v : value) :
  DynamicForm.type c = "email" → DynamicForm.is_empty v = false →
  DynamicForm.EmailExists ∈ DynamicForm.fieldErrors ex f c v ↔ v ∈ ex.
Proof.
  intros Hty Hv. unfold DynamicForm.fieldErrors, DynamicForm.typeErrors.
  rewrite Hv, Hty, andb_false_r. cbn [DynamicForm.push_if String.eqb Ascii.eqb Bool.eqb orb app].
  rewrite !app_nil_r, elem_of_app. unfold DynamicForm.push_if, JSArray.includes.
  split.
  - intros [Hin|Hin].
    + destruct (negb _); [|by apply elem_of_nil in Hin].
      by apply list_elem_of_singleton in Hin.
    + case_bool_decide; [done|]. by apply elem_of_nil in Hin.
  - intros Hin. right. rewrite bool_decide_eq_true_2 by done. by constructor.
Qed.


(** C9 (amended).  When a field that the schema marks as required is empty
    (the empty string, null or undefined), [validateForm] records the error
    "is required" for that field and answers false, and [handleSubmit] issues
    no submit request; it leaves the form data, the loading flag and the
    e-mails on record as they are, stores the new errors and clears the
    success and error banners. *)
Theorem required_empty_blocks_submit
    (schema : list (string * DynamicForm.fieldConfig)) (st : DynamicForm.state)
    (fieldName : string) (cfg : DynamicForm.fieldConfig) :
  (fieldName, cfg) ∈ schema → DynamicForm.required cfg = true →
  DynamicForm.is_empty (prop (DynamicForm.formData st) fieldName) = true →
  ∃ newErrors,
    DynamicForm.validateForm schema (DynamicForm.formData st) (DynamicForm.existingEmails st)
    = (newErrors, false)
    ∧ newErrors !! fieldName = Some [DynamicForm.IsRequired fieldName]
    ∧ DynamicForm.handleSubmit schema st
      = ({| DynamicForm.formData := DynamicForm.formData st;
            DynamicForm.errors := newErrors;
            DynamicForm.loading := DynamicForm.loading st;
            DynamicForm.submitMessage := "";
            DynamicForm.submitError := "";
            DynamicForm.existingEmails := DynamicForm.existingEmails st |}, None).
Proof.
  intros Hin Hreq Hempty.
  pose proof (validate_fold_required (DynamicForm.formData st) (DynamicForm.existingEmails st)
                schema ∅ fieldName Hempty (or_intror (ex_intro _ cfg (conj Hin Hreq))))
    as Hlookup.
  assert (DynamicForm.validateForm schema (DynamicForm.formData st)
            (DynamicForm.existingEmails st)
          = (foldl (DynamicForm.validateField (DynamicForm.formData st)
                      (DynamicForm.existingEmails st)) ∅ schema, false)) as Hv.
  { unfold DynamicForm.validateForm. f_equal. apply bool_decide_eq_false_2.
    intros Hsize. apply map_size_empty_iff in Hsize.
    rewrite Hsize, lookup_empty in Hlookup. done. }
  eexists. split; [exact Hv|]. split; [exact Hlookup|].
  unfold DynamicForm.handleSubmit. by rewrite Hv.
Qed.

End Validation_claims.



Example email_same_spelling_detected :
  (@DynamicForm.validateForm DynamicForm.integer_doubles App.formSchema
     (form "Bob" "Ann@X.com" "40" "male") [VString "Ann@X.com"]).1 !! "email"
  = Some [DynamicForm.EmailExists].
Proof. vm_compute. reflexivity. Qed.

Lemma required_empty_blocks_submit_witness :
  ∃ newErrors,
    @DynamicForm.validateForm DynamicForm.integer_doubles App.formSchema
      (DynamicForm.formData after_success) (DynamicForm.existingEmails after_success)
    = (newErrors, false)
    ∧ newErrors !! "name" = Some [DynamicForm.IsRequired "name"]
    ∧ @DynamicForm.handleSubmit DynamicForm.integer_doubles App.formSchema after_success
      = ({| DynamicForm.formData := DynamicForm.formData after_success;
            DynamicForm.errors := newErrors;
            DynamicForm.loading := DynamicForm.loading after_success;
            DynamicForm.submitMessage := "";
            DynamicForm.submitError := "";
            DynamicForm.existingEmails := DynamicForm.existingEmails after_success |}, None).
Proof.
  apply (@required_empty_blocks_submit DynamicForm.integer_doubles App.formSchema
           after_success "name"
           {| DynamicForm.type := "string"; DynamicForm.required := true;
              DynamicForm.minLength := Some 3; DynamicForm.maxLength := Some 50;
              DynamicForm.min := None; DynamicForm.max := None;
              DynamicForm.options := None |}).
  - apply list_elem_of_here.
  - reflexivity.
  - vm_compute. reflexivity.
Defined.

(** C9 as stated fails on "leaving all state unchanged": submitting the reset
    form while the success banner is still up issues no request, but the
    banner is cleared and the errors are stored. *)
Lemma invalid_submit_changes_state_counterexample :
  DynamicForm.is_empty (prop (DynamicForm.formData after_success) "name") = true
  ∧ (@DynamicForm.handleSubmit DynamicForm.integer_doubles App.formSchema after_success).2
    = None
  ∧ (@DynamicForm.handleSubmit DynamicForm.integer_doubles App.formSchema after_success).1
    ≠ after_success
  ∧ DynamicForm.submitMessage after_success ≠ ""
  ∧ DynamicForm.submitMessage
      (@DynamicForm.handleSubmit DynamicForm.integer_doubles App.formSchema after_success).1
    = "".
Proof.
  split; [vm_compute; reflexivity|]. split; [vm_compute; reflexivity|].
  split; [|split; [discriminate|vm_compute; reflexivity]].
  intros Heq. apply (f_equal DynamicForm.submitMessage) in Heq.
  vm_compute in Heq. discriminate Heq.
Qed.

(** * Further properties of the components *)

(** ** DynamicForm: the verdict of the validation *)

Lemma NoDup_fst_functional {K V} (l : list (K * V)) (k : K) (a b : V) :
  NoDup l.*1 → (k, a) ∈ l → (k, b) ∈ l → a = b.
Proof.
  induction l as [|[g d] l IH]; intros Hnd Ha Hb; [by apply elem_of_nil in Ha|].
  rewrite fmap_cons in Hnd. apply NoDup_cons in Hnd as [Hg Hnd].
  apply elem_of_cons in Ha as [Ha|Ha], Hb as [Hb|Hb].
  - congruence.
  - injection Ha as -> ->. exfalso. apply Hg, list_elem_of_fmap. by exists (g, b).
  - injection Hb as -> ->. exfalso. apply Hg, list_elem_of_fmap. by exists (g, a).
  - by apply IH.
Qed.

Section Validation_more.
Context `{DynamicForm.Doubles}.

Lemma validateField_empty (fd : gmap string value) (ex : list value)
    (acc : gmap string (list DynamicForm.message))
    (entry : string * DynamicForm.fieldConfig) :
  DynamicForm.validateField fd ex acc entry = ∅
  ↔ acc = ∅ ∧ DynamicForm.fieldErrors ex entry.1 entry.2 (prop fd entry.1) = [].
Proof.
  destruct entry as [f c]. unfold DynamicForm.validateField. cbn [fst snd].
  destruct (DynamicForm.fieldErrors ex f c (prop fd f)) as [|m errs]; cbn [length].
  - change (0 <? Z.of_nat 0) with false. cbv iota. tauto.
  - destruct (0 <? Z.of_nat (S (length errs))) eqn:Hpos.
    + split; [|by intros [_ ?]]. intros Hins. by apply insert_non_empty in Hins.
    + apply Z.ltb_ge in Hpos. lia.
Qed.

Lemma validate_fold_empty (fd : gmap string value) (ex : list value)
    (schema : list (string * DynamicForm.fieldConfig))
    (acc : gmap string (list DynamicForm.message)) :
  foldl (DynamicForm.validateField fd ex) acc schema = ∅
  ↔ acc = ∅
    ∧ Forall (λ entry, DynamicForm.fieldErrors ex entry.1 entry.2 (prop fd entry.1) = [])
        schema.
Proof.
  revert acc. induction schema as [|entry schema IH]; intros acc; cbn [foldl].
  - split; [by intros ->|by intros [-> _]].
  - rewrite IH, validateField_empty, Forall_cons. tauto.
Qed.

Lemma validateForm_verdict
    (schema : list (string * DynamicForm.fieldConfig))
    (fd : gmap string value) (ex : list value) :
  (DynamicForm.validateForm schema fd ex).2
  = bool_decide
      (Forall (λ entry, DynamicForm.fieldErrors ex entry.1 entry.2 (prop fd entry.1) = [])
         schema).
Proof.
  apply reflect_bool_decide. unfold DynamicForm.validateForm. cbn [fst snd].
  rewrite bool_decide_eq_true, map_size_empty_iff, validate_fold_empty. tauto.
Qed.

Lemma handleSubmit_cases
    (schema : list (string * DynamicForm.fieldConfig)) (st : DynamicForm.state) :
  DynamicForm.handleSubmit schema st
  = ({| DynamicForm.formData := DynamicForm.formData st;
        DynamicForm.errors :=
          (DynamicForm.validateForm schema (DynamicForm.formData st)
             (DynamicForm.existingEmails st)).1;
        DynamicForm.loading :=
          if (DynamicForm.validateForm schema (DynamicForm.formData st)
                (DynamicForm.existingEmails st)).2
          then true else DynamicForm.loading st;
        DynamicForm.submitMessage := "";
        DynamicForm.submitError := "";
        DynamicForm.existingEmails := DynamicForm.existingEmails st |},
     if (DynamicForm.validateForm schema (DynamicForm.formData st)
           (DynamicForm.existingEmails st)).2
     then Some (DynamicForm.formData st) else None).
Proof.
  unfold DynamicForm.handleSubmit.
  destruct (DynamicForm.validateForm schema (DynamicForm.formData st)
              (DynamicForm.existingEmails st)) as [newErrors []]; reflexivity.
Qed.

(** X1.  The form is valid exactly when no field of the schema has an error,
    and exactly then [handleSubmit] posts the form data (as they are), with
    an empty error map and the loading flag raised; otherwise nothing is
    posted and the loading flag stays as it was. *)
Theorem submit_iff_no_field_error
    (schema : list (string * DynamicForm.fieldConfig)) (st : DynamicForm.state) :
  (DynamicForm.validateForm schema (DynamicForm.formData st) (DynamicForm.existingEmails st)).2
  = bool_decide
      (Forall (λ entry,
                 DynamicForm.fieldErrors (DynamicForm.existingEmails st) entry.1 entry.2
                   (prop (DynamicForm.formData st) entry.1) = []) schema)
  ∧ (DynamicForm.handleSubmit schema st).2
    = (if (DynamicForm.validateForm schema (DynamicForm.formData st)
             (DynamicForm.existingEmails st)).2
       then Some (DynamicForm.formData st) else None)
  ∧ DynamicForm.loading (DynamicForm.handleSubmit schema st).1
    = (if (DynamicForm.validateForm schema (DynamicForm.formData st)
             (DynamicForm.existingEmails st)).2
       then true else DynamicForm.loading st)
  ∧ DynamicForm.errors (DynamicForm.handleSubmit schema st).1
    = (DynamicForm.validateForm schema (DynamicForm.formData st)
         (DynamicForm.existingEmails st)).1
  ∧ ((DynamicForm.validateForm schema (DynamicForm.formData st)
        (DynamicForm.existingEmails st)).2 = true →
     DynamicForm.errors (DynamicForm.handleSubmit schema st).1 = ∅).
Proof.
  split; [apply validateForm_verdict|].
  rewrite handleSubmit_cases. cbn [fst snd DynamicForm.loading DynamicForm.errors].
  repeat split. unfold DynamicForm.validateForm. cbn [fst snd].
  intros Hv. by apply bool_decide_eq_true, map_size_empty_iff in Hv.
Qed.

(** X2.  For a schema with distinct field names the error map holds, under
    each field name, exactly the errors of that field when it has any, and
    nothing under a name that is no field of the schema. *)
Theorem errors_keyed_by_failing_field
    (schema : list (string * DynamicForm.fieldConfig))
    (fd : gmap string value) (ex : list value)
    (f : string) (errs : list DynamicForm.message) :
  NoDup schema.*1 →
  (DynamicForm.validateForm schema fd ex).1 !! f = Some errs
  ↔ errs ≠ [] ∧ ∃ c, (f, c) ∈ schema ∧ DynamicForm.fieldErrors ex f c (prop fd f) = errs.
Proof.
  intros Hnd. destruct (decide (f ∈ schema.*1)) as [Hin|Hnotin].
  - apply list_elem_of_fmap in Hin as ([f' c] & Heq & Hin). cbn [fst] in Heq. subst f'.
    rewrite (validateForm_lookup _ _ _ _ _ Hnd Hin). split.
    + destruct (DynamicForm.fieldErrors ex f c (prop fd f)) as [|m l] eqn:He; [done|].
      intros [= <-]. split; [done|]. eauto.
    + intros (Hne & c' & Hin' & He).
      rewrite (NoDup_fst_functional _ _ _ _ Hnd Hin' Hin) in He.
      rewrite He. by destruct errs.
  - unfold DynamicForm.validateForm. cbn [fst].
    rewrite validate_fold_notin, lookup_empty by done. split; [done|].
    intros (_ & c & Hin & _). exfalso. apply Hnotin, list_elem_of_fmap. by exists (f, c).
Qed.


End Validation_more.

Lemma submit_iff_no_field_error_witness :
  (@DynamicForm.validateForm DynamicForm.integer_doubles App.formSchema
     (DynamicForm.formData (editing [] (form "Bob" "bob@x.com" "40" "male")))
     (DynamicForm.existingEmails (editing [] (form "Bob" "bob@x.com" "40" "male")))).2 = true
  ∧ DynamicForm.errors
      (@DynamicForm.handleSubmit DynamicForm.integer_doubles App.formSchema
         (editing [] (form "Bob" "bob@x.com" "40" "male"))).1 = ∅.
Proof.
  assert (Hv : (@DynamicForm.validateForm DynamicForm.integer_doubles App.formSchema
     (DynamicForm.formData (editing [] (form "Bob" "bob@x.com" "40" "male")))
     (DynamicForm.existingEmails (editing [] (form "Bob" "bob@x.com" "40" "male")))).2 = true).
  { vm_compute. reflexivity. }
  split; [exact Hv|].
  exact (proj2 (proj2 (proj2 (proj2
    (@submit_iff_no_field_error DynamicForm.integer_doubles App.formSchema
       (editing [] (form "Bob" "bob@x.com" "40" "male")))))) Hv).
Defined.

Lemma errors_keyed_by_failing_field_witness :
  NoDup App.formSchema.*1
  ∧ ((@DynamicForm.validateForm DynamicForm.integer_doubles App.formSchema
        (form "Al" "bob@x.com" "40" "male") []).1 !! "name"
     = Some [DynamicForm.TooShort 3]
     ↔ [DynamicForm.TooShort 3] ≠ []
       ∧ ∃ c, ("name", c) ∈ App.formSchema
              ∧ @DynamicForm.fieldErrors DynamicForm.integer_doubles [] "name" c
                  (prop (form "Al" "bob@x.com" "40" "male") "name")
                = [DynamicForm.TooShort 3]).
Proof.
  assert (Hnd : NoDup App.formSchema.*1).
  { cbn. repeat (constructor; [rewrite ?elem_of_cons, elem_of_nil; intuition discriminate|]).
    constructor. }
  split; [exact Hnd|].
  exact (@errors_keyed_by_failing_field DynamicForm.integer_doubles App.formSchema
           (form "Al" "bob@x.com" "40" "male") [] "name" [DynamicForm.TooShort 3] Hnd).
Defined.

(** ** DynamicForm: the pristine form *)

Lemma initial_fields_empty (schema : list (string * DynamicForm.fieldConfig)) (f : string) :
  DynamicForm.is_empty (prop (DynamicForm.formData (DynamicForm.initial schema)) f) = true.
Proof.
  unfold prop. cbn [DynamicForm.initial DynamicForm.formData].
  induction schema as [|[g c] schema IH]; [done|].
  rewrite fmap_cons, list_to_map_cons. cbn [fst].
  destruct (decide (g = f)) as [->|Hg].
  - by rewrite lookup_insert_eq.
  - by rewrite lookup_insert_ne.
Qed.

Section Validation_empty.
Context `{DynamicForm.Doubles}.

Lemma validate_fold_optional (fd : gmap string value) (ex : list value)
    (schema : list (string * DynamicForm.fieldConfig))
    (acc : gmap string (list DynamicForm.message)) (f : string) :
  DynamicForm.is_empty (prop fd f) = true →
  Forall (λ entry, entry.1 = f → DynamicForm.required entry.2 = false) schema →
  foldl (DynamicForm.validateField fd ex) acc schema !! f = acc !! f.
Proof.
  intros Hempty Hopt. revert acc.
  induction Hopt as [|[g c] schema Hc _ IH]; intros acc; [done|].
  cbn [foldl]. rewrite IH. destruct (decide (g = f)) as [->|Hg].
  - rewrite validateField_same. unfold DynamicForm.fieldErrors.
    cbn [fst snd] in Hc. rewrite Hempty, (Hc eq_refl). done.
  - by apply validateField_other.
Qed.

(** X3.  On the form as it is first shown (every field the empty string) the
    only errors are "is required", one under each required field: the type
    and the constraints of a field are not consulted while it is empty, and
    the form is valid exactly when the schema requires no field. *)
Theorem pristine_form_only_required_errors
    (schema : list (string * DynamicForm.fieldConfig)) (ex : list value)
    (f : string) (errs : list DynamicForm.message) :
  ((DynamicForm.validateForm schema
      (DynamicForm.formData (DynamicForm.initial schema)) ex).1 !! f = Some errs
   ↔ errs = [DynamicForm.IsRequired f]
     ∧ Exists (λ entry, entry.1 = f ∧ DynamicForm.required entry.2 = true) schema)
  ∧ (DynamicForm.validateForm schema
       (DynamicForm.formData (DynamicForm.initial schema)) ex).2
    = bool_decide (Forall (λ entry, DynamicForm.required entry.2 = false) schema).
Proof.
  pose proof (initial_fields_empty schema) as Hempty. split.
  - unfold DynamicForm.validateForm. cbn [fst].
    destruct (decide (Exists (λ entry, entry.1 = f ∧ DynamicForm.required entry.2 = true)
                        schema)) as [Hex|Hnex].
    + rewrite (validate_fold_required _ ex schema ∅ f (Hempty f)).
      * split; [intros [= <-]; by split|by intros [-> _]].
      * right. apply Exists_exists in Hex as ([g c] & Hin & Hg & Hc).
        cbn [fst snd] in *. subst g. eauto.
    + rewrite (validate_fold_optional _ ex schema ∅ f (Hempty f)), lookup_empty.
      * split; [done|]. by intros [_ ?].
      * apply Forall_forall. intros [g c] Hin Hg. cbn [fst snd] in *.
        destruct (DynamicForm.required c) eqn:Hc; [|done].
        exfalso. apply Hnex, Exists_exists. by exists (g, c).
  - rewrite validateForm_verdict.
    apply bool_decide_ext. apply Forall_proper; [|done].
    intros [g c]. cbn [fst snd]. unfold DynamicForm.fieldErrors.
    rewrite (Hempty g), andb_true_r. by destruct (DynamicForm.required c).
Qed.

(** X4.  The warning shown beside the e-mail field while it is edited implies
    that the submit is refused: when the field named "email" is an e-mail
    field of the schema and the warning is up, [handleSubmit] posts nothing
    and stores the "already exists" error under "email". *)
Theorem duplicate_warning_blocks_submit
    (schema : list (string * DynamicForm.fieldConfig)) (st : DynamicForm.state)
    (cfg : DynamicForm.fieldConfig) :
  NoDup schema.*1 → ("email", cfg) ∈ schema → DynamicForm.type cfg = "email" →
  DynamicForm.isEmailDuplicate "email" st = true →
  (DynamicForm.handleSubmit schema st).2 = None
  ∧ ∃ errs, DynamicForm.errors (DynamicForm.handleSubmit schema st).1 !! "email" = Some errs
            ∧ DynamicForm.EmailExists ∈ errs.
Proof.
  intros Hnd Hin Hty Hdup. unfold DynamicForm.isEmailDuplicate in Hdup.
  apply andb_true_iff in Hdup as [Htruthy Hex].
  rewrite String.eqb_refl in Htruthy. cbn [andb] in Htruthy.
  apply bool_decide_eq_true in Hex.
  assert (or_else (prop (DynamicForm.formData st) "email") (VString "")
          = prop (DynamicForm.formData st) "email"
          ∧ DynamicForm.is_empty (prop (DynamicForm.formData st) "email") = false)
    as [Hval Hne].
  { unfold or_else in *.
    destruct (truthy (prop (DynamicForm.formData st) "email")) eqn:Ht; [|done].
    split; [done|]. by destruct (prop (DynamicForm.formData st) "email") as [| | | |[|]]. }
  rewrite Hval in Hex.
  pose proof (proj2 (email_exists_error _ "email" cfg _ Hty Hne) Hex) as Herr.
  rewrite handleSubmit_cases. cbn [fst snd DynamicForm.errors].
  rewrite (validateForm_lookup _ _ _ _ _ Hnd Hin), validateForm_verdict.
  destruct (DynamicForm.fieldErrors _ "email" cfg _) as [|m l] eqn:He;
    [by apply elem_of_nil in Herr|].
  split; [|eauto].
  rewrite bool_decide_eq_false_2; [done|]. intros Hall.
  eapply Forall_forall in Hall; [|exact Hin]. cbn [fst snd] in Hall. congruence.
Qed.

End Validation_empty.

Lemma duplicate_warning_blocks_submit_witness :
  DynamicForm.isEmailDuplicate "email" (editing [ann] (form "Bob" "Ann@X.com" "40" "male"))
  = true
  ∧ (@DynamicForm.handleSubmit DynamicForm.integer_doubles App.formSchema
       (editing [ann] (form "Bob" "Ann@X.com" "40" "male"))).2 = None
  ∧ ∃ errs,
      DynamicForm.errors
        (@DynamicForm.handleSubmit DynamicForm.integer_doubles App.formSchema
           (editing [ann] (form "Bob" "Ann@X.com" "40" "male"))).1 !! "email" = Some errs
      ∧ DynamicForm.EmailExists ∈ errs.
Proof.
  assert (Hdup : DynamicForm.isEmailDuplicate "email"
                   (editing [ann] (form "Bob" "Ann@X.com" "40" "male")) = true).
  { vm_compute. reflexivity. }
  split; [exact Hdup|].
  apply (@duplicate_warning_blocks_submit DynamicForm.integer_doubles App.formSchema
           (editing [ann] (form "Bob" "Ann@X.com" "40" "male"))
           {| DynamicForm.type := "email"; DynamicForm.required := true;
              DynamicForm.minLength := None; DynamicForm.maxLength := None;
              DynamicForm.min := None; DynamicForm.max := None;
              DynamicForm.options := None |}).
  - cbn. repeat (constructor; [rewrite ?elem_of_cons, elem_of_nil; intuition discriminate|]).
    constructor.
  - apply list_elem_of_further, list_elem_of_here.
  - reflexivity.
  - exact Hdup.
Defined.

(** ** DynamicForm: the e-mail pattern *)

Lemma append_cons (a : ascii) (s t : string) : String a s +:+ t = String a (s +:+ t).
Proof. reflexivity. Qed.

Lemma append_empty_l (t : string) : "" +:+ t = t.
Proof. reflexivity. Qed.







Example email_pattern_examples :
  DynamicForm.emailRegex_test (VString "a@b.c") = true
  ∧ DynamicForm.emailRegex_test (VString "a@b..c") = true
  ∧ DynamicForm.emailRegex_test (VString "a@b@c.d") = false
  ∧ DynamicForm.emailRegex_test (VString " a@b.c") = false
  ∧ DynamicForm.emailRegex_test (VString "a@.c") = false
  ∧ DynamicForm.emailRegex_test (VString "a@b.") = false.
Proof. repeat split; vm_compute; reflexivity. Qed.

(** ** DynamicForm: loading the e-mails on record, editing a field *)

Lemma Array_map_throws {A B} (f : A → completion B) (l : list A) :
  (∀ x, f x = Throw TypeError ∨ returns (f x)) →
  Exists (λ x, f x = Throw TypeError) l → JSArray.map f l = Throw TypeError.
Proof.
  intros Hf. induction 1 as [x l Hx|x l _ IH]; cbn [JSArray.map].
  - by rewrite Hx.
  - destruct (Hf x) as [->|[y ->]]; [done|]. cbn [JS.bind]. by rewrite IH.
Qed.

(** X6.  Loading the e-mails on record is all or nothing.  When a submission
    of the response has no form data, the state, stale list included, stays
    as it was.  Otherwise the list is replaced by the truthy e-mails of the
    response, each once; the other parts of the state are not touched. *)
Theorem loadExistingEmails_all_or_nothing (subs : list submission) (st : DynamicForm.state) :
  (Exists (λ s, form_data s = None) subs → DynamicForm.loadExistingEmails subs st = st)
  ∧ (Forall (λ s, is_Some (form_data s)) subs →
       NoDup (DynamicForm.existingEmails (DynamicForm.loadExistingEmails subs st))
       ∧ (∀ v, v ∈ DynamicForm.existingEmails (DynamicForm.loadExistingEmails subs st)
               ↔ truthy v = true ∧ ∃ s, s ∈ subs ∧ field s "email" = v)
       ∧ DynamicForm.setFormData (DynamicForm.formData st)
           (DynamicForm.loadExistingEmails subs st)
         = {| DynamicForm.formData := DynamicForm.formData st;
              DynamicForm.errors := DynamicForm.errors st;
              DynamicForm.loading := DynamicForm.loading st;
              DynamicForm.submitMessage := DynamicForm.submitMessage st;
              DynamicForm.submitError := DynamicForm.submitError st;
              DynamicForm.existingEmails :=
                DynamicForm.existingEmails (DynamicForm.loadExistingEmails subs st) |}).
Proof.
  split.
  - intros Hex. unfold DynamicForm.loadExistingEmails, DynamicForm.emails_of.
    rewrite Array_map_throws; [done| |].
    + intros s. destruct (form_data s); [right; by eexists|by left].
    + eapply Exists_impl; [exact Hex|]. by intros s ->.
  - intros Hall. split; [|split].
    + unfold DynamicForm.loadExistingEmails. rewrite emails_of_spec by done.
      apply NoDup_distinct_from.
    + intros v. by apply existingEmails_loaded.
    + unfold DynamicForm.loadExistingEmails. by rewrite emails_of_spec.
Qed.

Lemma loadExistingEmails_all_or_nothing_witness :
  (Exists (λ s, form_data s = None) [ann; with_form_data None bob]
   ∧ DynamicForm.loadExistingEmails [ann; with_form_data None bob] after_success
     = after_success)
  ∧ (Forall (λ s, is_Some (form_data s)) [ann; bob; ann_again]
     ∧ NoDup (DynamicForm.existingEmails
                (DynamicForm.loadExistingEmails [ann; bob; ann_again] after_success))).
Proof.
  split.
  - assert (He : Exists (λ s, form_data s = None) [ann; with_form_data None bob]).
    { apply Exists_cons_tl, Exists_cons_hd. reflexivity. }
    split; [exact He|].
    exact (proj1 (loadExistingEmails_all_or_nothing [ann; with_form_data None bob]
                    after_success) He).
  - assert (Ha : Forall (λ s, is_Some (form_data s)) [ann; bob; ann_again]).
    { repeat constructor; by eexists. }
    split; [exact Ha|].
    exact (proj1 (proj2 (loadExistingEmails_all_or_nothing [ann; bob; ann_again]
                           after_success) Ha)).
Defined.

Example existing_emails_kept_once :
  DynamicForm.existingEmails (DynamicForm.loadExistingEmails [ann; bob; ann_again] after_success)
  = [VString "Ann@X.com"; VString "ann@x.com"].
Proof. vm_compute. reflexivity. Qed.

(** X7.  Editing a field stores the value of the control under the name of
    the field (the checked state for a check box), removes the errors shown
    for that field and leaves the values and the errors of every other field,
    and the rest of the state, as they were; typing into the field named
    "email" raises the duplicate warning at once exactly when the text typed
    is not empty and is on record. *)
Theorem handleChange_edits_one_field
    (name value0 type0 : string) (checked : bool) (st : DynamicForm.state) :
  prop (DynamicForm.formData (DynamicForm.handleChange name value0 type0 checked st)) name
  = (if String.eqb type0 "checkbox" then VBool checked else VString value0)
  ∧ default [] (DynamicForm.errors (DynamicForm.handleChange name value0 type0 checked st)
                !! name) = []
  ∧ (∀ other, other ≠ name →
       prop (DynamicForm.formData (DynamicForm.handleChange name value0 type0 checked st)) other
       = prop (DynamicForm.formData st) other
       ∧ DynamicForm.errors (DynamicForm.handleChange name value0 type0 checked st) !! other
         = DynamicForm.errors st !! other)
  ∧ DynamicForm.existingEmails (DynamicForm.handleChange name value0 type0 checked st)
    = DynamicForm.existingEmails st
  ∧ (String.eqb type0 "checkbox" = false →
     DynamicForm.isEmailDuplicate "email"
       (DynamicForm.handleChange "email" value0 type0 checked st)
     = negb (String.eqb value0 "")
       && bool_decide (VString value0 ∈ DynamicForm.existingEmails st)).
Proof.
  unfold DynamicForm.handleChange. cbn [DynamicForm.formData DynamicForm.errors
                                          DynamicForm.existingEmails].
  split; [unfold prop; by rewrite lookup_insert_eq|]. split.
  { destruct (DynamicForm.errors st !! name) as [[|m l]|] eqn:He.
    - by rewrite He.
    - by rewrite lookup_insert_eq.
    - by rewrite He. }
  split.
  { intros other Hne. split; [unfold prop; by rewrite lookup_insert_ne|].
    destruct (DynamicForm.errors st !! name) as [[|m l]|]; [done| |done].
    by rewrite lookup_insert_ne. }
  split; [done|].
  intros Hty. unfold DynamicForm.isEmailDuplicate.
  cbn [DynamicForm.formData DynamicForm.existingEmails].
  unfold prop. rewrite lookup_insert_eq, Hty, String.eqb_refl. cbn [default andb].
  unfold or_else, JSArray.includes. simpl.
  destruct (String.eqb value0 "") eqn:Hv; simpl; [done|]. by rewrite Hv.
Qed.

Lemma handleChange_edits_one_field_witness :
  DynamicForm.isEmailDuplicate "email"
    (DynamicForm.handleChange "email" "Ann@X.com" "email" false after_success)
  = negb (String.eqb "Ann@X.com" "")
    && bool_decide (VString "Ann@X.com" ∈ DynamicForm.existingEmails after_success).
Proof.
  exact (proj2 (proj2 (proj2 (proj2
    (handleChange_edits_one_field "email" "Ann@X.com" "email" false after_success))))
    eq_refl).
Defined.

(** ** SubmissionsList: refining a query *)



















(** ** SubmissionsList: walking through the pages *)

Lemma concat_pages {A} (l : list A) (n k : nat) :
  concat ((λ p, take n (drop (p * n) l)) <$> seq 0 k) = take (k * n) l.
Proof.
  induction k as [|k IH]; [done|].
  rewrite seq_S, fmap_app, concat_app, IH. cbn [fmap list_fmap concat].
  rewrite app_nil_r, take_take_drop. f_equal. lia.
Qed.

Lemma ceil_div_bounds (t n : nat) :
  (1 ≤ n → t ≤ (t + n - 1) / n * n ∧ (1 ≤ t → ((t + n - 1) / n - 1) * n < t
                                               ∧ 1 ≤ (t + n - 1) / n))%nat.
Proof.
  intros Hn.
  pose proof (Nat.div_mod_eq (t + n - 1) n) as Hdm.
  pose proof (Nat.mod_upper_bound (t + n - 1) n ltac:(lia)) as Hmod.
  split; [nia|]. intros Ht. split; [nia|].
  destruct ((t + n - 1) / n)%nat eqn:Hd; [nia|lia].
Qed.

Lemma totalPages_count (st : state) :
  (1 ≤ pageSize st)%nat →
  ∃ n, totalPages st = Count n ∧ (1 ≤ n)%nat ∧ (total st ≤ n * pageSize st)%nat
       ∧ ((1 ≤ total st)%nat → ((n - 1) * pageSize st < total st)%nat).
Proof.
  intros Hn. unfold totalPages.
  destruct (pageSize st =? 0)%nat eqn:Hz; [apply Nat.eqb_eq in Hz; lia|].
  destruct (ceil_div_bounds (total st) (pageSize st) Hn) as [Hup Hlow].
  destruct ((total st + pageSize st - 1) / pageSize st =? 0)%nat eqn:Hc.
  - apply Nat.eqb_eq in Hc. rewrite Hc in *. exists 1%nat.
    repeat split; [lia|lia|]. intros Ht. destruct (Hlow Ht). lia.
  - apply Nat.eqb_neq in Hc. eexists. repeat split; [lia|lia|]. intros Ht.
    by destruct (Hlow Ht).
Qed.

Lemma rows_of_page_spec (st st' : state) (found sorted : list submission) (p : nat) :
  search (searchQuery st) (submissions st) = Normal found →
  sortSubmissions (sortBy st) (sortOrder st) found = Normal sorted →
  rows_of_page st p = take (pageSize st) (drop (p * pageSize st) sorted).
Proof.
  intros Hf Hs. unfold rows_of_page.
  by rewrite (applyFilters_spec (setPage p st) found sorted Hf Hs).
Qed.

Lemma applyFilters_result (st st' : state) :
  applyFilters st = Normal st' →
  ∃ found sorted,
    search (searchQuery st) (submissions st) = Normal found
    ∧ sortSubmissions (sortBy st) (sortOrder st) found = Normal sorted
    ∧ st' = {| submissions := submissions st;
               filteredSubmissions :=
                 take (pageSize st) (drop (page st * pageSize st) sorted);
               total := length sorted;
               searchQuery := searchQuery st;
               page := page st;
               pageSize := pageSize st;
               sortBy := sortBy st;
               sortOrder := sortOrder st |}.
Proof.
  intros Hst'. pose proof Hst' as Hinv.
  apply applyFilters_inv in Hinv as (found & sorted & Hf & Hs & _ & _).
  exists found, sorted. split; [done|]. split; [done|].
  rewrite (applyFilters_spec st found sorted Hf Hs) in Hst'. by injection Hst'.
Qed.

(** X10.  The pages partition the result: with a page size of at least 1,
    the rows of the pages 0 to totalPages - 1, one after the other, are the
    sorted list of the records the search keeps, each record once; no page
    of that range is empty unless there is no result at all, and every page
    behind the range is empty. *)
Theorem pages_partition_results (st st' : state) :
  applyFilters st = Normal st' →
  (1 ≤ pageSize st)%nat →
  ∃ n found sorted,
    totalPages st' = Count n
    ∧ search (searchQuery st) (submissions st) = Normal found
    ∧ sortSubmissions (sortBy st) (sortOrder st) found = Normal sorted
    ∧ concat (rows_of_page st <$> seq 0 n) = sorted
    ∧ concat (rows_of_page st <$> seq 0 n) ≡ₚ found
    ∧ ((1 ≤ total st')%nat → ∀ p, (p < n)%nat → rows_of_page st p ≠ [])
    ∧ ∀ p, (n ≤ p)%nat → rows_of_page st p = [].
Proof.
  intros Hst' Hn.
  apply applyFilters_result in Hst' as (found & sorted & Hf & Hs & ->).
  destruct (totalPages_count
              {| submissions := submissions st;
                 filteredSubmissions :=
                   take (pageSize st) (drop (page st * pageSize st) sorted);
                 total := length sorted; searchQuery := searchQuery st;
                 page := page st; pageSize := pageSize st;
                 sortBy := sortBy st; sortOrder := sortOrder st |} Hn)
    as (n & Hcount & Hn1 & Hup & Hlow).
  cbn [total pageSize] in *.
  exists n, found, sorted. split; [done|]. split; [done|]. split; [done|].
  assert (concat (rows_of_page st <$> seq 0 n) = sorted) as Hcat.
  { rewrite (list_fmap_ext (rows_of_page st)
               (λ p, take (pageSize st) (drop (p * pageSize st) sorted)) (seq 0 n)).
    - rewrite concat_pages. apply take_ge. lia.
    - intros i p _. by apply (rows_of_page_spec st st found sorted). }
  split; [done|]. split; [rewrite Hcat; by eapply sort_perm|]. split.
  - intros Ht p Hp. rewrite (rows_of_page_spec st st found sorted p Hf Hs).
    intros Hnil. apply (f_equal length) in Hnil.
    rewrite length_take, length_drop in Hnil. cbn [length] in Hnil.
    specialize (Hlow Ht). nia.
  - intros p Hp. rewrite (rows_of_page_spec st st found sorted p Hf Hs).
    rewrite drop_ge; [apply take_nil|]. nia.
Qed.

Lemma pages_partition_results_witness :
  (1 ≤ pageSize (setPageSize 2 (view [late3; early1; early2])))%nat
  ∧ ∃ st' n found sorted,
      applyFilters (setPageSize 2 (view [late3; early1; early2])) = Normal st'
      ∧ totalPages st' = Count n
      ∧ search (searchQuery (setPageSize 2 (view [late3; early1; early2])))
          (submissions (setPageSize 2 (view [late3; early1; early2]))) = Normal found
      ∧ sortSubmissions (sortBy (setPageSize 2 (view [late3; early1; early2])))
          (sortOrder (setPageSize 2 (view [late3; early1; early2]))) found = Normal sorted
      ∧ concat (rows_of_page (setPageSize 2 (view [late3; early1; early2])) <$> seq 0 n)
        = sorted.
Proof.
  assert (Hn : (1 ≤ pageSize (setPageSize 2 (view [late3; early1; early2])))%nat).
  { vm_compute. lia. }
  split; [exact Hn|].
  destruct (applyFilters (setPageSize 2 (view [late3; early1; early2]))) as [st'|e] eqn:Hst'.
  - destruct (pages_partition_results _ st' Hst' Hn)
      as (n & found & sorted & Hc & Hf & Hs & Hcat & _).
    exists st', n, found, sorted. by repeat split.
  - vm_compute in Hst'. discriminate Hst'.
Defined.

Example two_pages_of_three_records :
  rows_of_page (setPageSize 2 (view [late3; early1; early2])) 0 = [late3; early1]
  ∧ rows_of_page (setPageSize 2 (view [late3; early1; early2])) 1 = [early2]
  ∧ rows_of_page (setPageSize 2 (view [late3; early1; early2])) 2 = [].
Proof. repeat split; vm_compute; reflexivity. Qed.

(** ** SubmissionsList: the Previous and Next buttons, the results line *)

Lemma totalPages_no_result (st : state) :
  (1 ≤ pageSize st)%nat → total st = 0%nat → totalPages st = Count 1.
Proof.
  intros Hn Ht. unfold totalPages. rewrite Ht.
  destruct (pageSize st =? 0)%nat eqn:Hz; [apply Nat.eqb_eq in Hz; lia|].
  replace ((0 + pageSize st - 1) / pageSize st)%nat with 0%nat; [done|].
  symmetry. apply Nat.div_small. lia.
Qed.

Lemma setPage_same (st : state) : setPage (page st) st = st.
Proof. by destruct st. Qed.

Lemma setPage_setPage (p q : nat) (st : state) : setPage p (setPage q st) = setPage p st.
Proof. reflexivity. Qed.

(** X11.  After the effect has run with a page size of at least 1: where the
    Next button is enabled it leads to the following page, that page shows at
    least one row, and Previous leads back; where the Previous button is
    enabled it leads to the page before, and Next leads back; and neither
    button leads from a page of the range 0 to totalPages - 1 out of it. *)
Theorem page_buttons_stay_in_range (st st' : state) :
  applyFilters st = Normal st' →
  (1 ≤ pageSize st)%nat →
  ∃ n,
    totalPages st' = Count n
    ∧ (hasNextPage st' = true →
         page (nextPage st') = (page st' + 1)%nat
         ∧ rows_of_page st' (page (nextPage st')) ≠ []
         ∧ previousPage (nextPage st') = st')
    ∧ (hasPreviousPage st' = true →
         (page (previousPage st') + 1)%nat = page st'
         ∧ ((page st' < n)%nat → nextPage (previousPage st') = st'))
    ∧ ((page st' < n)%nat →
         (page (nextPage st') < n)%nat ∧ (page (previousPage st') < n)%nat).
Proof.
  intros Hst' Hn.
  apply applyFilters_result in Hst' as (found & sorted & Hf & Hs & ->).
  set (st' := {| submissions := submissions st;
                 filteredSubmissions :=
                   take (pageSize st) (drop (page st * pageSize st) sorted);
                 total := length sorted; searchQuery := searchQuery st;
                 page := page st; pageSize := pageSize st;
                 sortBy := sortBy st; sortOrder := sortOrder st |}).
  destruct (totalPages_count st' Hn) as (n & Hcount & Hn1 & Hup & Hlow).
  exists n. split; [done|].
  assert (Hnext_eq : nextPage st'
            = setPage (Z.to_nat (Z.min (Z.of_nat n - 1) (Z.of_nat (page st) + 1))) st').
  { unfold nextPage. by rewrite Hcount. }
  assert (Hprev_eq : ∀ s, previousPage s
            = setPage (Z.to_nat (Z.max 0 (Z.of_nat (page s) - 1))) s) by done.
  assert (Hrows : ∀ p, rows_of_page st' p
            = take (pageSize st) (drop (p * pageSize st) sorted)).
  { intros p. unfold rows_of_page.
    by rewrite (applyFilters_spec (setPage p st') found sorted Hf Hs). }
  assert (Hpage : page st' = page st) by done.
  change (total st') with (length sorted) in Hup, Hlow.
  change (pageSize st') with (pageSize st) in Hup, Hlow.
  split; [|split].
  - unfold hasNextPage. rewrite Hcount, Hpage. intros Hnext. apply Z.ltb_lt in Hnext.
    rewrite Hnext_eq.
    replace (Z.to_nat (Z.min (Z.of_nat n - 1) (Z.of_nat (page st) + 1)))
      with (page st + 1)%nat by lia.
    split; [done|]. split.
    + change (page (setPage (page st + 1) st')) with (page st + 1)%nat.
      rewrite Hrows. intros Hnil. apply (f_equal length) in Hnil.
      rewrite length_take, length_drop in Hnil. cbn [length] in Hnil.
      assert (1 ≤ length sorted)%nat as Ht.
      { destruct (decide (length sorted = 0%nat)) as [Hz|?]; [|lia].
        rewrite (totalPages_no_result st' Hn Hz) in Hcount.
        injection Hcount as <-. lia. }
      specialize (Hlow Ht).
      assert ((page st + 1) * pageSize st ≤ (n - 1) * pageSize st)%nat
        by (apply Nat.mul_le_mono_r; lia).
      cbn [pageSize] in Hn. lia.
    + rewrite Hprev_eq.
      change (page (setPage (page st + 1) st')) with (page st + 1)%nat.
      change (setPage ?p (setPage ?q st')) with (setPage p st').
      replace (Z.to_nat (Z.max 0 (Z.of_nat (page st + 1) - 1))) with (page st') by (rewrite Hpage; lia).
      apply setPage_same.
  - unfold hasPreviousPage. rewrite Hpage. intros Hprev. apply Nat.ltb_lt in Hprev.
    rewrite Hprev_eq, Hpage.
    split; [change (page (setPage ?p st')) with p; lia|]. intros Hin.
    unfold nextPage.
    change (totalPages (setPage ?p st')) with (totalPages st'). rewrite Hcount.
    change (page (setPage ?p st')) with p.
    change (setPage ?p (setPage ?q st')) with (setPage p st').
    replace (Z.to_nat (Z.min _ _)) with (page st') by (rewrite Hpage; lia).
    apply setPage_same.
  - rewrite Hpage. intros Hin. rewrite Hnext_eq, Hprev_eq, Hpage.
    change (page (setPage ?p st')) with p. lia.
Qed.

Lemma page_buttons_stay_in_range_witness :
  (1 ≤ pageSize (setPageSize 2 (view [late3; early1; early2])))%nat
  ∧ ∃ st' n,
      applyFilters (setPageSize 2 (view [late3; early1; early2])) = Normal st'
      ∧ totalPages st' = Count n
      ∧ hasNextPage st' = true
      ∧ page (nextPage st') = (page st' + 1)%nat
      ∧ rows_of_page st' (page (nextPage st')) ≠ []
      ∧ previousPage (nextPage st') = st'.
Proof.
  assert (Hn : (1 ≤ pageSize (setPageSize 2 (view [late3; early1; early2])))%nat).
  { vm_compute. lia. }
  split; [exact Hn|].
  destruct (applyFilters (setPageSize 2 (view [late3; early1; early2]))) as [st'|e] eqn:Hst'.
  - destruct (page_buttons_stay_in_range _ st' Hst' Hn) as (n & Hc & Hnext & _).
    assert (Hhas : hasNextPage st' = true).
    { vm_compute in Hst'. injection Hst' as <-. vm_compute. reflexivity. }
    exists st', n. split; [reflexivity|]. split; [exact Hc|]. split; [exact Hhas|].
    exact (Hnext Hhas).
  - vm_compute in Hst'. discriminate Hst'.
Defined.

(** X12.  The results line counts the rows shown.  After the effect has run,
    when the page shows rows the line reads "Showing from to to of total"
    with from = page * pageSize + 1, to at most total and to - from + 1 the
    number of rows; when there is no result it reads 0 to 0 of 0. *)
Theorem results_line_counts_rows (st st' : state) :
  applyFilters st = Normal st' →
  (filteredSubmissions st' ≠ [] →
     showingFrom st' = (page st' * pageSize st' + 1)%nat
     ∧ (showingTo st' ≤ total st')%nat
     ∧ (showingTo st' + 1 - showingFrom st')%nat = length (filteredSubmissions st'))
  ∧ (total st' = 0%nat → showingFrom st' = 0%nat ∧ showingTo st' = 0%nat).
Proof.
  intros Hst'.
  apply applyFilters_result in Hst' as (found & sorted & Hf & Hs & ->).
  unfold showingFrom, showingTo. cbn [filteredSubmissions page pageSize total].
  split.
  - intros Hne.
    assert (1 ≤ length (take (pageSize st) (drop (page st * pageSize st) sorted)))%nat
      as Hlen.
    { destruct (take _ _); [done|]. cbn [length]. lia. }
    destruct (0 <? length _)%nat eqn:Hpos; [|apply Nat.ltb_ge in Hpos; lia].
    rewrite length_take, length_drop in *. split; [done|]. nia.
  - intros Ht. apply length_zero_iff_nil in Ht as ->.
    rewrite drop_nil, take_nil. cbn [length]. split; [done|]. lia.
Qed.

Lemma results_line_counts_rows_witness :
  ∃ st',
    applyFilters (setPage 1 (setPageSize 2 (view [late3; early1; early2]))) = Normal st'
    ∧ filteredSubmissions st' ≠ []
    ∧ showingFrom st' = (page st' * pageSize st' + 1)%nat
    ∧ (showingTo st' ≤ total st')%nat
    ∧ (showingTo st' + 1 - showingFrom st')%nat = length (filteredSubmissions st').
Proof.
  destruct (applyFilters (setPage 1 (setPageSize 2 (view [late3; early1; early2]))))
    as [st'|e] eqn:Hst'.
  - assert (Hne : filteredSubmissions st' ≠ []).
    { vm_compute in Hst'. injection Hst' as <-. discriminate. }
    exists st'. split; [reflexivity|]. split; [exact Hne|].
    exact (proj1 (results_line_counts_rows _ st' Hst') Hne).
  - vm_compute in Hst'. discriminate Hst'.
Defined.

(** ** SubmissionsList: the search and the sort together *)

Lemma Array_filter_char {A} (p : A → completion bool) (l l' : list A) :
  JSArray.filter p l = Normal l' →
  Forall (λ x, returns (p x)) l ∧ l' = filter (λ x, p x = Normal true) l.
Proof.
  revert l'. induction l as [|x l IH]; intros l' Hf.
  - cbn in Hf. injection Hf as <-. by split.
  - cbn [JSArray.filter] in Hf.
    destruct (p x) as [b|e] eqn:Hx; [|done]. cbn [bind] in Hf.
    destruct (JSArray.filter p l) as [r|e] eqn:Hr; [|done]. cbn [bind] in Hf.
    injection Hf as <-. destruct (IH r eq_refl) as [Hall ->].
    split; [constructor; [rewrite Hx; by eexists|done]|].
    destruct b.
    + by rewrite filter_cons_True.
    + by rewrite filter_cons_False by (rewrite Hx; congruence).
Qed.

Lemma Array_filter_of_returns {A} (p : A → completion bool) (l : list A) :
  Forall (λ x, returns (p x)) l →
  JSArray.filter p l = Normal (filter (λ x, p x = Normal true) l).
Proof.
  induction 1 as [|x l [b Hx] _ IH]; [done|].
  cbn [JSArray.filter]. rewrite Hx, IH. cbn [bind]. destruct b.
  - by rewrite filter_cons_True.
  - by rewrite filter_cons_False by (rewrite Hx; congruence).
Qed.

Lemma Forall_perm {A} (P : A → Prop) (l1 l2 : list A) :
  l1 ≡ₚ l2 → Forall P l2 → Forall P l1.
Proof. intros Hp. by rewrite Hp. Qed.


Lemma filter_filter_swap {A} (P Q : A → Prop)
    `{!∀ x, Decision (P x), !∀ x, Decision (Q x)} (l : list A) :
  filter P (filter Q l) = filter Q (filter P l).
Proof. rewrite !list_filter_filter. apply list_filter_iff. tauto. Qed.


(** X13.  Searching and sorting commute: on records whose text fields can be
    lower-cased (and, for the sort by submission time, whose times are
    valid), the rows the effect computes by searching first and sorting the
    matches are the matching rows of the whole list sorted, in its order. *)
Theorem search_and_sort_commute (q sortBy sortOrder : string) (subs : list submission) :
  Forall text_fields_ok subs →
  (sortBy = "submitted_at" → Forall valid_time subs) →
  ∃ found rows sorted,
    search q subs = Normal found
    ∧ sortSubmissions sortBy sortOrder found = Normal rows
    ∧ sortSubmissions sortBy sortOrder subs = Normal sorted
    ∧ search q sorted = Normal rows.
Proof.
  intros Hok Htime.
  destruct (search_returns q subs Hok) as [found Hfound].
  pose proof (search_sublist q subs found Hfound) as Hsub.
  assert (Hokf : Forall text_fields_ok found) by eauto using Forall_sublist_of.
  assert (Htimef : sortBy = "submitted_at" → Forall valid_time found)
    by eauto using Forall_sublist_of.
  destruct (sortSubmissions_spec sortBy sortOrder found Hokf Htimef)
    as (rows & Hrows & Hprows & Hsrows & Hkrows).
  destruct (sortSubmissions_spec sortBy sortOrder subs Hok Htime)
    as (sorted & Hsorted & Hpsorted & Hssorted & Hksorted).
  exists found, rows, sorted. repeat split; [done..|].
  unfold search in *. destruct (truthy (VString (trim q))).
  - apply Array_filter_char in Hfound as [Hret ->].
    rewrite Array_filter_of_returns by eauto using Forall_perm.
    f_equal.
    apply (sortSubmissions_unique sortBy sortOrder
             (filter (λ x, matchesQuery (lower q) x = Normal true) subs)); try done.
    + by rewrite Hpsorted.
    + eapply StronglySorted_sublist_of; [apply sublist_filter; apply _|done].
    + intros k.
      rewrite !(filter_filter_swap (has_key sortBy k)).
      by rewrite Hksorted.
  - injection Hfound as <-. congruence.
Qed.

Lemma search_and_sort_commute_witness :
  Forall text_fields_ok [early2; ann; bob; ann_again]
  ∧ ("submitted_at" = "submitted_at" → Forall valid_time [early2; ann; bob; ann_again])
  ∧ ∃ found rows sorted,
      search "ann" [early2; ann; bob; ann_again] = Normal found
      ∧ sortSubmissions "submitted_at" "desc" found = Normal rows
      ∧ sortSubmissions "submitted_at" "desc" [early2; ann; bob; ann_again] = Normal sorted
      ∧ search "ann" sorted = Normal rows.
Proof.
  assert (Hok : Forall text_fields_ok [early2; ann; bob; ann_again])
    by (repeat constructor; vm_compute; reflexivity).
  assert (Htime : "submitted_at" = "submitted_at"
                  → Forall valid_time [early2; ann; bob; ann_again])
    by (intros _; repeat constructor; vm_compute; discriminate).
  split; [exact Hok|]. split; [exact Htime|].
  exact (search_and_sort_commute "ann" "submitted_at" "desc" _ Hok Htime).
Defined.

(** X14.  Sorting is idempotent: the sorted list, sorted again by the same
    column in the same direction, comes back as it is. *)
Theorem sorting_twice_changes_nothing (sortBy sortOrder : string)
    (data sorted : list submission) :
  Forall text_fields_ok data →
  (sortBy = "submitted_at" → Forall valid_time data) →
  sortSubmissions sortBy sortOrder data = Normal sorted →
  sortSubmissions sortBy sortOrder sorted = Normal sorted.
Proof.
  intros Hok Htime Hsorted.
  destruct (sortSubmissions_spec sortBy sortOrder data Hok Htime)
    as (sorted' & Hsorted' & Hperm & Hss & _).
  assert (sorted' = sorted) as -> by congruence.
  assert (Hok' : Forall text_fields_ok sorted) by eauto using Forall_perm.
  assert (Htime' : sortBy = "submitted_at" → Forall valid_time sorted)
    by eauto using Forall_perm.
  destruct (sortSubmissions_spec sortBy sortOrder sorted Hok' Htime')
    as (again & Hagain & Hpagain & Hsagain & Hkagain).
  rewrite Hagain. f_equal. symmetry.
  by apply (sortSubmissions_unique sortBy sortOrder sorted).
Qed.

Lemma sorting_twice_changes_nothing_witness :
  Forall text_fields_ok [ann_again; bob; ann]
  ∧ sortSubmissions "name" "asc" [ann_again; bob; ann] = Normal [ann_again; ann; bob]
  ∧ sortSubmissions "name" "asc" [ann_again; ann; bob] = Normal [ann_again; ann; bob].
Proof.
  assert (Hok : Forall text_fields_ok [ann_again; bob; ann])
    by (repeat constructor; vm_compute; reflexivity).
  assert (Hs : sortSubmissions "name" "asc" [ann_again; bob; ann]
               = Normal [ann_again; ann; bob]) by (vm_compute; reflexivity).
  split; [exact Hok|]. split; [exact Hs|].
  apply (sorting_twice_changes_nothing "name" "asc" [ann_again; bob; ann] _ Hok);
    [intros; discriminate|exact Hs].
Defined.



Example equal_keys_are_not_reversed :
  sortSubmissions "submitted_at" "asc" [early1; early2; late3] = Normal [early1; early2; late3]
  ∧ sortSubmissions "submitted_at" "desc" [early1; early2; late3] = Normal [late3; early1; early2].
Proof. split; vm_compute; reflexivity. Qed.

(** ** SubmissionsList: column titles *)

Lemma Array_sort_ext {A} (cmp1 cmp2 : A → A → completion Z) (l : list A) :
  (∀ a b, cmp1 a b = cmp2 a b) → JSArray.sort cmp1 l = JSArray.sort cmp2 l.
Proof.
  intros Hext.
  assert (Hins : ∀ x r, JSArray.insert cmp1 x r = JSArray.insert cmp2 x r).
  { intros x r. induction r as [|y r IH]; [done|].
    cbn [JSArray.insert]. by rewrite Hext, IH. }
  induction l as [|x l IH]; [done|].
  cbn [JSArray.sort]. rewrite IH. destruct (JSArray.sort cmp2 l); [apply Hins|done].
Qed.

Lemma compare_not_asc (sortBy sortOrder : string) (a b : submission) :
  sortOrder ≠ "asc" → compare sortBy sortOrder a b = compare sortBy "desc" a b.
Proof.
  intros Ho. apply String.eqb_neq in Ho. unfold compare. by rewrite Ho.
Qed.

(** X16.  A click on a column title makes that column the sort column: its
    arrow is up or down, down when the column was not the sort column
    before, and every other column shows both arrows.  A further click on the
    same title flips the arrow, and a third brings back the state after the
    first.  The click leaves the page where it is.  The arrow tells the
    order the list is sorted in: up is the order "asc", down is the order
    "desc", whatever string the direction holds. *)
Theorem column_click_toggles (field : string) (st : state) :
  let st1 := handleColumnClick field st in
  let st2 := handleColumnClick field st1 in
  sortBy st1 = field
  ∧ getSortIndicator field st1 ≠ BothArrows
  ∧ (∀ other, other ≠ field → getSortIndicator other st1 = BothArrows)
  ∧ (sortBy st ≠ field → getSortIndicator field st1 = DownArrow)
  ∧ getSortIndicator field st2 ≠ getSortIndicator field st1
  ∧ getSortIndicator field st2 ≠ BothArrows
  ∧ handleColumnClick field st2 = st1
  ∧ page st1 = page st
  ∧ (∀ data, getSortIndicator field st = UpArrow →
       sortSubmissions (sortBy st) (sortOrder st) data
       = sortSubmissions field "asc" data)
  ∧ (∀ data, getSortIndicator field st = DownArrow →
       sortSubmissions (sortBy st) (sortOrder st) data
       = sortSubmissions field "desc" data).
Proof.
  cbn zeta. unfold getSortIndicator, handleColumnClick. cbn [sortBy sortOrder page].
  rewrite !String.eqb_refl. cbn [negb].
  repeat split.
  - destruct (String.eqb (SubmissionsList.sortBy st) field);
      [destruct (String.eqb (SubmissionsList.sortOrder st) "desc")|]; done.
  - intros other Ho. apply not_eq_sym, String.eqb_neq in Ho. by rewrite Ho.
  - intros Hb. apply String.eqb_neq in Hb. by rewrite Hb.
  - destruct (String.eqb (SubmissionsList.sortBy st) field);
      [destruct (String.eqb (SubmissionsList.sortOrder st) "desc")|]; done.
  - destruct (String.eqb (SubmissionsList.sortBy st) field);
      [destruct (String.eqb (SubmissionsList.sortOrder st) "desc")|]; done.
  - destruct (String.eqb (SubmissionsList.sortBy st) field);
      [destruct (String.eqb (SubmissionsList.sortOrder st) "desc")|]; done.
  - intros data.
    destruct (String.eqb (SubmissionsList.sortBy st) field) eqn:Hb; [|done].
    destruct (String.eqb (SubmissionsList.sortOrder st) "asc") eqn:Ho; [|done].
    apply String.eqb_eq in Hb, Ho. by rewrite Hb, Ho.
  - intros data.
    destruct (String.eqb (SubmissionsList.sortBy st) field) eqn:Hb; [|done].
    destruct (String.eqb (SubmissionsList.sortOrder st) "asc") eqn:Ho; [done|].
    apply String.eqb_eq in Hb. apply String.eqb_neq in Ho. rewrite Hb. intros _.
    apply Array_sort_ext. intros a b. by apply compare_not_asc.
Qed.

Example column_click_on_default_view :
  getSortIndicator "submitted_at" initial = DownArrow
  ∧ getSortIndicator "submitted_at" (handleColumnClick "submitted_at" initial) = UpArrow
  ∧ getSortIndicator "name" (handleColumnClick "name" initial) = DownArrow
  ∧ getSortIndicator "submitted_at" (handleColumnClick "name" initial) = BothArrows.
Proof. repeat split. Qed.

(** ** Requests of the list *)

Lemma string_param_cases (k : string) (x : option string) :
  FormService.string_param k x
  = match x with
    | Some (String c s) => [(k, String c s)]
    | _ => []
    end.
Proof. by destruct x as [[|c s]|]. Qed.

(** X17.  The request [fetchSubmissions] sends asks for the first 1000
    records whatever the page, the page size and the query of the view are;
    it asks the server to sort by submitted_at when the view does and by id
    for every other sort column, in the direction of the view, and it never
    filters on duplicates. *)
Theorem fetch_asks_for_first_thousand (st : state) :
  FormService.path (fetchRequest st) = "/submissions/"
  ∧ FormService.get "skip" (fetchRequest st) = Some "0"
  ∧ FormService.get "limit" (fetchRequest st) = Some "1000"
  ∧ FormService.get "sort_by" (fetchRequest st)
    = Some (if String.eqb (sortBy st) "submitted_at" then "submitted_at" else "id")
  ∧ FormService.get "order" (fetchRequest st)
    = (if String.eqb (sortOrder st) "" then None else Some (sortOrder st))
  ∧ FormService.get "is_duplicate" (fetchRequest st) = None
  ∧ FormService.get "query" (fetchRequest st) = None
  ∧ ∀ p n q,
      fetchRequest (setPage p (setPageSize n (handleSearchChange q st))) = fetchRequest st.
Proof.
  assert (Hreq : FormService.params (fetchRequest st)
                 = ([("skip", "0"); ("limit", "1000");
                    ("sort_by", if String.eqb (sortBy st) "submitted_at"
                                then "submitted_at" else "id")]
                   ++ match sortOrder st with
                      | String c s => [("order", String c s)]
                      | EmptyString => []
                      end)%list).
  { unfold fetchRequest, FormService.getSubmissions, fetchParams.
    cbn [FormService.params FormService.skip FormService.limit
         FormService.sort_by FormService.order FormService.is_duplicate].
    rewrite !string_param_cases.
    destruct (String.eqb (sortBy st) "submitted_at"), (sortOrder st); reflexivity. }
  unfold FormService.get. rewrite Hreq.
  split_and!; try reflexivity;
    destruct (String.eqb (sortBy st) "submitted_at"), (sortOrder st); reflexivity.
Qed.

(** X18.  The optional parameters of the two requests: [is_duplicate] is
    sent whenever it is set, as "true" or "false"; [sort_by], [order] and
    [query] are sent when they are set to a string other than the empty one;
    the search request carries no [sort_by] and no [order], the list request
    no [query]. *)
Theorem optional_params_sent_when_set (o : FormService.options) :
  FormService.get "is_duplicate" (FormService.getSubmissions o)
    = (λ b : bool, if b then "true" else "false") <$> FormService.is_duplicate o
  ∧ FormService.get "is_duplicate" (FormService.searchSubmissions o)
    = (λ b : bool, if b then "true" else "false") <$> FormService.is_duplicate o
  ∧ FormService.get "sort_by" (FormService.getSubmissions o)
    = (if decide (FormService.sort_by o = Some "") then None else FormService.sort_by o)
  ∧ FormService.get "order" (FormService.getSubmissions o)
    = (if decide (FormService.order o = Some "") then None else FormService.order o)
  ∧ FormService.get "query" (FormService.searchSubmissions o)
    = (if decide (FormService.query o = Some "") then None else FormService.query o)
  ∧ FormService.get "sort_by" (FormService.searchSubmissions o) = None
  ∧ FormService.get "order" (FormService.searchSubmissions o) = None
  ∧ FormService.get "query" (FormService.getSubmissions o) = None.
Proof.
  unfold FormService.getSubmissions, FormService.searchSubmissions, FormService.get.
  cbn [FormService.params]. rewrite !string_param_cases.
  destruct o as [q sk li sb ord dup]. cbn [FormService.query FormService.sort_by
    FormService.order FormService.is_duplicate FormService.skip FormService.limit].
  destruct q as [[|? ?]|], sb as [[|? ?]|], ord as [[|? ?]|], dup as [[|]|];
    repeat split; reflexivity.
Qed.

Example duplicates_filter_false_is_sent :
  FormService.get "is_duplicate"
    (FormService.getSubmissions
       {| FormService.query := None; FormService.skip := None;
          FormService.limit := None; FormService.sort_by := Some "";
          FormService.order := None; FormService.is_duplicate := Some false |})
  = Some "false".
Proof. reflexivity. Qed.



(** ** App: what the form of the application accepts *)





Section App_schema.
Context `{DynamicForm.Doubles}.


End App_schema.

Example formSchema_on_integer_ages :
  (DynamicForm.validateForm (H := DynamicForm.integer_doubles) App.formSchema
     (form "Ann" "ann@x.com" "30" "female") [VString "bob@x.com"]).2 = true
  ∧ (DynamicForm.validateForm (H := DynamicForm.integer_doubles) App.formSchema
       (form "Ann" "ann@x.com" "121" "female") []).2 = false
  ∧ (DynamicForm.validateForm (H := DynamicForm.integer_doubles) App.formSchema
       (form "Ann" "ann@x.com" "-1" "female") []).2 = false
  ∧ (DynamicForm.validateForm (H := DynamicForm.integer_doubles) App.formSchema
       (form "Ann" "ann@x.com" "thirty" "female") []).2 = false
  ∧ (DynamicForm.validateForm (H := DynamicForm.integer_doubles) App.formSchema
       (form "Al" "ann@x.com" "30" "female") []).2 = false
  ∧ (DynamicForm.validateForm (H := DynamicForm.integer_doubles) App.formSchema
       (form "Ann" "ann@x.com" "30" "Female") []).2 = false.
Proof. repeat split; vm_compute; reflexivity. Qed.

(** ** parseInt on the decimal form of an integer *)

Lemma radix_digit_pretty (d : N) :
  (d < 10)%N → radix_digit 10 (pretty_N_char d) = Some (Z.of_N d).
Proof.
  intros Hd.
  assert (d = 0 ∨ d = 1 ∨ d = 2 ∨ d = 3 ∨ d = 4 ∨ d = 5 ∨ d = 6 ∨ d = 7
          ∨ d = 8 ∨ d = 9)%N as Hcases by lia.
  repeat (destruct Hcases as [->|Hcases]; [reflexivity|]). by subst.
Qed.

Lemma is_digit_pretty (d : N) : DynamicForm.is_digit (pretty_N_char d) = true.
Proof. unfold pretty_N_char. by repeat case_match. Qed.

Lemma parse_digits_pretty_go (x : N) :
  (0 < x)%N →
  ∃ p : Z, ∀ s acc,
    parse_digits 10 (pretty_N_go x s) acc
    = parse_digits 10 s (Some (default 0 acc * p + Z.of_N x)).
Proof.
  induction (N.lt_wf_0 x) as [x _ IH]. intros Hx.
  assert (Hd : (x `mod` 10 < 10)%N) by (apply N.mod_lt; lia).
  destruct (decide (x `div` 10 = 0)%N) as [Hz|Hnz].
  - exists 10. intros s acc. rewrite pretty_N_go_step, Hz, pretty_N_go_0 by done.
    cbn [parse_digits]. rewrite radix_digit_pretty by done.
    do 2 f_equal. rewrite N.mod_small by (apply N.div_small_iff; lia). lia.
  - destruct (IH (x `div` 10)%N) as [p Hp]; [apply N.div_lt; lia|by apply N.neq_0_lt_0|].
    exists (p * 10). intros s acc. rewrite pretty_N_go_step, Hp by done.
    cbn [parse_digits]. rewrite radix_digit_pretty by done. cbn [default from_option].
    unfold Datatypes.id. do 2 f_equal. pose proof (N.div_mod x 10 ltac:(lia)). nia.
Qed.

Lemma all_digits_pretty_go (x : N) (s : string) :
  DynamicForm.all_chars DynamicForm.is_digit s = true →
  DynamicForm.all_chars DynamicForm.is_digit (pretty_N_go x s) = true.
Proof.
  revert s. induction (N.lt_wf_0 x) as [x _ IH]. intros s Hs.
  destruct (decide (0 < x)%N) as [Hx|Hx].
  - rewrite pretty_N_go_step by done. apply IH; [apply N.div_lt; lia|].
    cbn [DynamicForm.all_chars]. by rewrite is_digit_pretty.
  - replace x with 0%N by lia. by rewrite pretty_N_go_0.
Qed.

Lemma pretty_go_length (x : N) (s : string) :
  (String.length s ≤ String.length (pretty_N_go x s))%nat
  ∧ ((0 < x)%N → (String.length s < String.length (pretty_N_go x s))%nat).
Proof.
  revert s. induction (N.lt_wf_0 x) as [x _ IH]. intros s.
  destruct (decide (0 < x)%N) as [Hx|Hx].
  - rewrite pretty_N_go_step by done.
    destruct (IH (x `div` 10)%N ltac:(apply N.div_lt; lia)
                (String (pretty_N_char (x `mod` 10)) s)) as [Hle _].
    cbn [String.length] in Hle. lia.
  - replace x with 0%N by lia. rewrite pretty_N_go_0. lia.
Qed.

Lemma pretty_go_nonempty (x : N) :
  (0 < x)%N →
  ∃ c r, pretty_N_go x "" = String c r
         ∧ DynamicForm.is_digit c = true
         ∧ DynamicForm.all_chars DynamicForm.is_digit r = true.
Proof.
  intros Hx.
  pose proof (all_digits_pretty_go x "" eq_refl) as Hall.
  destruct (pretty_go_length x "") as [_ Hlen]. specialize (Hlen Hx).
  destruct (pretty_N_go x "") as [|c r]; [cbn in Hlen; lia|].
  cbn [DynamicForm.all_chars] in Hall. apply andb_true_iff in Hall as [? ?].
  by exists c, r.
Qed.

Lemma digit_not_white_space (c : ascii) :
  DynamicForm.is_digit c = true → is_white_space c = false.
Proof.
  unfold DynamicForm.is_digit, is_white_space. intros Hd.
  apply andb_true_iff in Hd as [H1 H2]. apply Z.leb_le in H1, H2.
  repeat (apply orb_false_iff; split); apply Z.eqb_neq; lia.
Qed.

Lemma strip_sign_digit (c : ascii) (r : string) :
  DynamicForm.is_digit c = true → strip_sign (String c r) = (1, String c r).
Proof.
  destruct c as [[] [] [] [] [] [] [] []]; intros Hd; try reflexivity;
    vm_compute in Hd; discriminate.
Qed.

Lemma strip_radix_digits (c : ascii) (r : string) :
  DynamicForm.all_chars DynamicForm.is_digit r = true →
  strip_radix (String c r) = (10, String c r).
Proof.
  intros Hr. destruct r as [|c2 r].
  - by destruct c as [[] [] [] [] [] [] [] []].
  - cbn [DynamicForm.all_chars] in Hr. apply andb_true_iff in Hr as [Hd _].
    destruct (decide (c = "0"%char)) as [->|Hc].
    + destruct c2 as [[] [] [] [] [] [] [] []]; try reflexivity;
        vm_compute in Hd; discriminate.
    + destruct c as [[] [] [] [] [] [] [] []]; try reflexivity. done.
Qed.

Lemma parseInt_pretty_N (x : N) :
  (0 < x)%N →
  parse_digits 10 (pretty_N_go x "") None = Some (Z.of_N x)
  ∧ trimStart (pretty_N_go x "") = pretty_N_go x ""
  ∧ strip_sign (pretty_N_go x "") = (1, pretty_N_go x "")
  ∧ strip_radix (pretty_N_go x "") = (10, pretty_N_go x "").
Proof.
  intros Hx. split.
  - destruct (parse_digits_pretty_go x Hx) as [p Hp]. rewrite Hp.
    cbn [parse_digits default from_option]. done.
  - destruct (pretty_go_nonempty x Hx) as (c & r & -> & Hc & Hr).
    split; [|split].
    + cbn [trimStart]. by rewrite digit_not_white_space.
    + by apply strip_sign_digit.
    + by apply strip_radix_digits.
Qed.

Lemma parseInt_pretty (z : Z) : parseInt_string (pretty z) = Num z.
Proof.
  unfold parseInt_string. destruct z as [|p|p].
  - reflexivity.
  - change (pretty (Z.pos p)) with (pretty_N_go (N.pos p) "").
    destruct (parseInt_pretty_N (N.pos p) ltac:(lia)) as (Hd & Ht & Hs & Hr).
    rewrite Ht, Hs. cbv beta iota. rewrite Hr. cbv beta iota. rewrite Hd.
    f_equal.
  - change (pretty (Z.neg p)) with ("-" +:+ pretty_N_go (N.pos p) "").
    rewrite append_cons, append_empty_l.
    destruct (parseInt_pretty_N (N.pos p) ltac:(lia)) as (Hd & _ & _ & Hr).
    change (trimStart (String "-" ?s)) with (String "-" s).
    change (strip_sign (String "-" ?s)) with (-1, s).
    cbv beta iota. rewrite Hr. cbv beta iota. rewrite Hd. f_equal.
Qed.

(** X21.  An age that is an integer (within the exact range of a double)
    sorts by its value, whether the record holds it as a number or as its
    decimal string: [parseInt] reads back what [String] writes, and the sort
    key of the age column is that integer. *)
Theorem age_sorts_by_value (z : Z) (a : submission) :
  - 2 ^ 53 < z < 2 ^ 53 →
  field a "age" = VNumber (Num z) ∨ field a "age" = VString (pretty z) →
  parseInt (field a "age") = Num z
  ∧ sort_key "age" a = Normal (KNum (Num z)).
Proof.
  intros _ Hage.
  assert (Hparse : parseInt (field a "age") = Num z).
  { destruct Hage as [-> | ->]; apply parseInt_pretty. }
  split; [done|].
  change (sort_key "age" a) with (Normal (age_key (field a "age"))).
  rewrite age_key_spec, Hparse. reflexivity.
Qed.

Lemma age_sorts_by_value_witness :
  - 2 ^ 53 < 30 < 2 ^ 53
  ∧ field ann "age" = VNumber (Num 30)
  ∧ parseInt (field ann "age") = Num 30
  ∧ sort_key "age" ann = Normal (KNum (Num 30)).
Proof.
  assert (Hr : - 2 ^ 53 < 30 < 2 ^ 53) by lia.
  assert (Ha : field ann "age" = VNumber (Num 30)) by (vm_compute; reflexivity).
  split; [exact Hr|]. split; [exact Ha|].
  exact (age_sorts_by_value 30 ann Hr (or_introl Ha)).
Defined.

Example age_strings_read_as_integers :
  parseInt (VString "42") = Num 42
  ∧ parseInt (VString " 42 years") = Num 42
  ∧ parseInt (VString "-7") = Num (-7)
  ∧ parseInt (VString "0x1f") = Num 31
  ∧ parseInt (VString "forty") = NaN
  ∧ parseInt VUndefined = NaN.
Proof. repeat split; vm_compute; reflexivity. Qed.

(** ** SubmissionsList: handlers that go back to the first page *)

(** X22.  A change of the query and a change of the page size both go back
    to the first page.  With a page size of at least 1 the effect then shows
    the first rows of the result, as many as the page holds or the result
    has; the table is empty only when nothing matches, the Previous button
    is disabled and the results line starts at 1 (at 0 when nothing
    matches). *)
Theorem reset_shows_first_rows (st0 st st' : state) (q : string) (n : nat) :
  st = handleSearchChange q st0 ∨ st = handlePageSizeChange n st0 →
  (1 ≤ pageSize st)%nat →
  applyFilters st = Normal st' →
  page st' = 0%nat
  ∧ length (filteredSubmissions st') = Nat.min (pageSize st) (total st')
  ∧ (filteredSubmissions st' = [] ↔ total st' = 0%nat)
  ∧ hasPreviousPage st' = false
  ∧ showingFrom st' = (if decide (total st' = 0%nat) then 0 else 1)%nat
  ∧ showingTo st' = length (filteredSubmissions st').
Proof.
  intros Hreset Hn Hst'.
  assert (Hpage : page st = 0%nat) by (by destruct Hreset as [-> | ->]).
  apply applyFilters_result in Hst' as (found & sorted & _ & _ & ->).
  unfold hasPreviousPage, showingFrom, showingTo.
  cbn [page filteredSubmissions total pageSize]. rewrite Hpage.
  cbn [Nat.mul drop Nat.add Nat.ltb Nat.leb]. rewrite Nat.add_0_r.
  rewrite length_take, !drop_0.
  split_and!; try done.
  - split.
    + intros Hnil. apply (f_equal length) in Hnil. rewrite length_take in Hnil.
      cbn [length] in Hnil. lia.
    + intros Hz. destruct sorted; [by rewrite take_nil|done].
  - case_decide as Hz.
    + by rewrite Hz, Nat.min_0_r.
    + destruct (Nat.min (pageSize st) (length sorted)) eqn:Hm; [lia|done].
Qed.

Lemma reset_shows_first_rows_witness :
  (1 ≤ pageSize (handlePageSizeChange 2 (view [late3; early1; early2])))%nat
  ∧ ∃ st',
      applyFilters (handlePageSizeChange 2 (view [late3; early1; early2])) = Normal st'
      ∧ page st' = 0%nat
      ∧ length (filteredSubmissions st') = 2%nat
      ∧ showingTo st' = length (filteredSubmissions st').
Proof.
  assert (Hn : (1 ≤ pageSize (handlePageSizeChange 2 (view [late3; early1; early2])))%nat)
    by (vm_compute; lia).
  split; [exact Hn|].
  destruct (applyFilters (handlePageSizeChange 2 (view [late3; early1; early2])))
    as [st'|e] eqn:Hst'; [|vm_compute in Hst'; discriminate].
  exists st'. split; [reflexivity|].
  destruct (reset_shows_first_rows (view [late3; early1; early2]) _ st' "" 2
              (or_intror eq_refl) Hn Hst') as (H1 & H2 & _ & _ & _ & H6).
  split; [exact H1|]. split; [|exact H6].
  rewrite H2. injection Hst' as <-. reflexivity.
Defined.

(** A refetch keeps the page: after the only row of the last page is
    deleted the table is empty although records remain, and the results line
    reads "Showing 0 to 2 of 2". *)
Example refetch_keeps_page :
  ∃ st', applyFilters
           (fetched (Some [late3; early1])
              (setPage 1 (setPageSize 2 (view [late3; early1; early2]))))
         = Normal st'
    ∧ filteredSubmissions st' = [] ∧ total st' = 2%nat
    ∧ showingFrom st' = 0%nat ∧ showingTo st' = 2%nat.
Proof. eexists. split; [vm_compute; reflexivity|]. repeat split. Qed.
